(** * ACPL league backend: the Redis read-through cache of the REST routes

    A shallow embedding of the Express route handlers under
    [server/routes] (players, teams, standings, fixtures, playerStats,
    news, transfers, awards) together with the two collaborators they
    talk to: the shared ioredis client of [config/redis.js] and the
    Mongoose models.  JavaScript values are JSON trees, a handler is a
    computation over an explicit world (collections, Redis store, trace of
    effects) that can complete, [return] early or throw. *)

From Stdlib Require Import ZArith Ascii String List Lia DecimalString DecimalZ DecimalPos.
From stdpp Require Import base option list strings gmap sorting.

Local Open Scope Z_scope.

(** ** JavaScript values *)

(** The JSON fragment of JavaScript values: what [req.query], [req.body],
    documents and cached payloads are made of.  Numbers are the integers
    (a document with a fraction, a [NaN] or an integer beyond 2^53, where
    a JavaScript number rounds, is no value of this type).  An object is
    the list of its properties in the order it enumerates them, which is
    the order [Object.keys] and [JSON.stringify] follow: array indices
    first, in ascending order, then the other names in the order they
    were set ([obj_set]). *)
#[warnings="-register-all"]
Inductive JSON : Type :=
| JNull
| JBool (b : bool)
| JNum (n : Z)
| JStr (s : string)
| JArr (xs : list JSON)
| JObj (kvs : list (string * JSON)).

(** A JavaScript object literal; property lookup gives [None] for
    [undefined]. *)
Abbreviation Obj := (list (string * JSON)).

Fixpoint obj_get (o : Obj) (k : string) : option JSON :=
  match o with
  | [] => None
  | (k', v) :: o' => if String.eqb k' k then Some v else obj_get o' k
  end.

(** An array index: the canonical decimal numeral of an integer below
    2^32 - 1.  An object enumerates the properties of such names first. *)
Definition array_index (k : string) : option N :=
  match NilZero.uint_of_string k with
  | Some u =>
      let n := N.of_uint u in
      if String.eqb (NilZero.string_of_uint (N.to_uint n)) k && (n <? 4294967295)%N
      then Some n else None
  | None => None
  end.

(** The number of a property whose name is an array index. *)
Definition index_of (kv : string * JSON) : N := default 0%N (array_index (fst kv)).

(** Where a new property [k] goes: before [k'] when [k] is an array index
    and [k'] is a greater one, or none. *)
Definition comes_first (k k' : string) : bool :=
  match array_index k, array_index k' with
  | Some n, Some n' => (n <? n')%N
  | Some _, None => true
  | None, _ => false
  end.

Fixpoint obj_replace (o : Obj) (k : string) (v : JSON) : Obj :=
  match o with
  | [] => []
  | (k', v') :: o' =>
      if String.eqb k' k then (k, v) :: o' else (k', v') :: obj_replace o' k v
  end.

Fixpoint obj_insert (o : Obj) (k : string) (v : JSON) : Obj :=
  match o with
  | [] => [(k, v)]
  | (k', v') :: o' =>
      if comes_first k k' then (k, v) :: o else (k', v') :: obj_insert o' k v
  end.

(** [o[k] = v]: a property the object has is overwritten where it is; a
    new one is enumerated among the array indices, by its number, when
    its name is one, and last otherwise. *)
Definition obj_set (o : Obj) (k : string) (v : JSON) : Obj :=
  match obj_get o k with
  | Some _ => obj_replace o k v
  | None => obj_insert o k v
  end.

(** The object that results from setting the properties of [l] one by
    one.  It is [req.query] for a URL with the parameters [l], in that
    order, when the query parser takes their names as they are: no name
    comes twice (the values would be collected in an array), has a
    bracket (the parameter would be nested) or is a property of
    [Object.prototype] (it would be dropped). *)
Definition query_object (l : list (string * JSON)) : Obj :=
  fold_left (fun o kv => obj_set o (fst kv) (snd kv)) l [].

(** [Object.keys(o)] *)
Definition Object_keys (o : Obj) : list string := map fst o.

(** Truthiness of a possibly [undefined] value, as [if (x)] and [!x] see it. *)
Definition truthy (v : option JSON) : bool :=
  match v with
  | None | Some JNull => false
  | Some (JBool b) => b
  | Some (JNum n) => negb (n =? 0)
  | Some (JStr s) => negb (String.eqb s "")
  | Some (JArr _) | Some (JObj _) => true
  end.

(** [typeof v !== 'number'] *)
Definition not_a_number (v : option JSON) : bool :=
  match v with Some (JNum _) => false | _ => true end.

(** [v !== undefined] *)
Definition defined (v : option JSON) : bool :=
  match v with Some _ => true | None => false end.

(** [v === s] for a string literal [s]. *)
Definition is_string (v : option JSON) (s : string) : bool :=
  match v with Some (JStr s') => String.eqb s' s | _ => false end.

(** [list.includes(v)] for an array of string literals. *)
Definition includes (l : list string) (v : option JSON) : bool :=
  existsb (is_string v) l.

(** [allowed.includes(update)] for a property name. *)
Definition includes_key (l : list string) (k : string) : bool :=
  existsb (String.eqb k) l.

(** ** [JSON.stringify] *)

Definition string_of_Z (n : Z) : string := NilZero.string_of_int (Z.to_int n).

Definition hex_digit (n : N) : ascii :=
  match n with
  | 0 => "0" | 1 => "1" | 2 => "2" | 3 => "3" | 4 => "4" | 5 => "5"
  | 6 => "6" | 7 => "7" | 8 => "8" | 9 => "9" | 10 => "a" | 11 => "b"
  | 12 => "c" | 13 => "d" | 14 => "e" | _ => "f"
  end%N%char.

(** The escape of one character inside a string literal: the two-character
    escapes of [QuoteJSONString], [\u00XX] for the other control
    characters, the character itself otherwise. *)
Definition escape_char (c : ascii) : string :=
  let n := N_of_ascii c in
  if (n =? 34)%N then String "\" (String "034" "")
  else if (n =? 92)%N then String "\" (String "\" "")
  else if (n =? 8)%N then String "\" (String "b" "")
  else if (n =? 9)%N then String "\" (String "t" "")
  else if (n =? 10)%N then String "\" (String "n" "")
  else if (n =? 12)%N then String "\" (String "f" "")
  else if (n =? 13)%N then String "\" (String "r" "")
  else if (n <? 32)%N then
    String "\" (String "u" (String "0" (String "0"
      (String (hex_digit (n / 16)) (String (hex_digit (n mod 16)) "")))))
  else String c "".

Fixpoint escape (s : string) : string :=
  match s with
  | EmptyString => ""
  | String c s' => escape_char c +:+ escape s'
  end.

Definition quote (s : string) : string :=
  String "034" (escape s +:+ String "034" "").

(** [parts.join(",")], written as the first part followed by the
    comma-prefixed others. *)
Fixpoint sep_all (l : list string) : string :=
  match l with
  | [] => ""
  | x :: l' => String "," (x +:+ sep_all l')
  end.

Definition join_comma (l : list string) : string :=
  match l with
  | [] => ""
  | x :: l' => x +:+ sep_all l'
  end.

Fixpoint JSON_stringify (v : JSON) : string :=
  match v with
  | JNull => "null"
  | JBool true => "true"
  | JBool false => "false"
  | JNum n => string_of_Z n
  | JStr s => quote s
  | JArr xs => String "[" (join_comma (map JSON_stringify xs) +:+ "]")
  | JObj kvs =>
      String "{"
        (join_comma
           (map (fun kv => quote (fst kv) +:+ String ":" (JSON_stringify (snd kv))) kvs)
         +:+ "}")
  end.

(** ** Cache keys *)

(** The template literal [`${ns}:${JSON.stringify(req.query)}`] every
    cached list route builds its key with ([ns] is [players],
    [transfers], [awards], [playerStats] or [news]).  [query] is the
    object [req.query], its properties in the order it enumerates them
    ([query_object] gives it for the parameters of a URL). *)
Definition cacheKey (ns : string) (query : Obj) : string :=
  ns +:+ String ":" (JSON_stringify (JObj query)).

(** [`${type}:${req.params.id}`] *)
Definition entityKey (type id : string) : string := type +:+ String ":" id.

(** ** [JSON.parse] *)

(** A parser of the texts [JSON_stringify] writes: compact (no white
    space between tokens), numbers the integers.  It reads back every
    text a route stores for a value of [JSON]; it is not [JSON.parse] on
    other texts (it gives [None] for a JSON text with white space, a
    fraction or an exponent, which [JSON.parse] reads).  [None] stands
    for the [SyntaxError] thrown. *)

Definition is_num_char (c : ascii) : bool :=
  let n := N_of_ascii c in
  ((n =? 45) || ((48 <=? n) && (n <=? 57)))%N.

Fixpoint span_num (s : string) : string * string :=
  match s with
  | EmptyString => ("", "")
  | String c s' =>
      if is_num_char c
      then let (p, r) := span_num s' in (String c p, r)
      else ("", s)
  end.

Definition parse_number (s : string) : option (Z * string) :=
  let (p, r) := span_num s in
  d ← NilZero.int_of_string p;
  if String.eqb (string_of_Z (Z.of_int d)) p then Some (Z.of_int d, r) else None.

Definition hex_value (c : ascii) : option N :=
  let n := N_of_ascii c in
  if ((48 <=? n) && (n <=? 57))%N then Some (n - 48)%N
  else if ((97 <=? n) && (n <=? 102))%N then Some (n - 87)%N
  else if ((65 <=? n) && (n <=? 70))%N then Some (n - 55)%N
  else None.

(** The character an escape sequence stands for; [s] is the text after
    the backslash. *)
Definition unescape (s : string) : option (ascii * string) :=
  match s with
  | String e r =>
      let n := N_of_ascii e in
      if (n =? 34)%N then Some (e, r)
      else if (n =? 92)%N then Some (e, r)
      else if (n =? 47)%N then Some (e, r)
      else if (n =? 98)%N then Some (ascii_of_N 8, r)
      else if (n =? 116)%N then Some (ascii_of_N 9, r)
      else if (n =? 110)%N then Some (ascii_of_N 10, r)
      else if (n =? 102)%N then Some (ascii_of_N 12, r)
      else if (n =? 114)%N then Some (ascii_of_N 13, r)
      else if (n =? 117)%N then
        match r with
        | String h1 (String h2 (String h3 (String h4 r'))) =>
            a ← hex_value h1; b ← hex_value h2;
            c ← hex_value h3; d ← hex_value h4;
            if ((a =? 0) && (b =? 0))%N
            then Some (ascii_of_N (16 * c + d), r')
            else None
        | _ => None
        end
      else None
  | EmptyString => None
  end.

(** The characters of a string literal up to its closing quote; [s] is
    the text after the opening quote. *)
Fixpoint parse_chars (fuel : nat) (s : string) : option (string * string) :=
  match fuel with
  | O => None
  | S fuel =>
      match s with
      | EmptyString => None
      | String c r =>
          let n := N_of_ascii c in
          if (n =? 34)%N then Some ("", r)
          else if (n =? 92)%N then
            '(x, r1) ← unescape r;
            '(str, r2) ← parse_chars fuel r1;
            Some (String x str, r2)
          else if (n <? 32)%N then None
          else
            '(str, r1) ← parse_chars fuel r;
            Some (String c str, r1)
      end
  end.

Definition parse_string (s : string) : option (string * string) :=
  parse_chars (String.length s) s.

(** [expect c s]: [s] without its first character, which must be [c]. *)
Definition expect (c : ascii) (s : string) : option string :=
  match s with
  | String c' r => if Ascii.eqb c' c then Some r else None
  | EmptyString => None
  end.

Fixpoint expect_all (p s : string) : option string :=
  match p with
  | EmptyString => Some s
  | String c p' => r ← expect c s; expect_all p' r
  end.

Section Composite.
(** The parser of one value, which the parsers of elements and members
    call on each of theirs. *)
Variable parse_elem : string -> option (JSON * string).

(** What follows an element of an array: the closing bracket, or a
    comma and the next element. *)
Fixpoint parse_elements (fuel : nat) (s : string) : option (list JSON * string) :=
  match fuel with
  | O => None
  | S fuel =>
      match s with
      | EmptyString => None
      | String c r =>
          if Ascii.eqb c "]" then Some ([], r)
          else if Ascii.eqb c "," then
            '(x, r1) ← parse_elem r;
            '(xs, r2) ← parse_elements fuel r1;
            Some (x :: xs, r2)
          else None
      end
  end.

Definition parse_member (s : string) : option ((string * JSON) * string) :=
  r ← expect "034" s;
  '(k, r1) ← parse_string r;
  r2 ← expect ":" r1;
  '(v, r3) ← parse_elem r2;
  Some ((k, v), r3).

Fixpoint parse_members (fuel : nat) (s : string) : option (Obj * string) :=
  match fuel with
  | O => None
  | S fuel =>
      match s with
      | EmptyString => None
      | String c r =>
          if Ascii.eqb c "}" then Some ([], r)
          else if Ascii.eqb c "," then
            '(kv, r1) ← parse_member r;
            '(kvs, r2) ← parse_members fuel r1;
            Some (kv :: kvs, r2)
          else None
      end
  end.
End Composite.

Fixpoint parse_value (fuel : nat) (s : string) : option (JSON * string) :=
  match fuel with
  | O => None
  | S fuel =>
      match s with
      | EmptyString => None
      | String c r =>
          if is_num_char c then
            '(n, r1) ← parse_number s; Some (JNum n, r1)
          else if Ascii.eqb c "n" then r1 ← expect_all "ull" r; Some (JNull, r1)
          else if Ascii.eqb c "t" then r1 ← expect_all "rue" r; Some (JBool true, r1)
          else if Ascii.eqb c "f" then r1 ← expect_all "alse" r; Some (JBool false, r1)
          else if Ascii.eqb c "034" then
            '(str, r1) ← parse_string r; Some (JStr str, r1)
          else if Ascii.eqb c "[" then
            match parse_value fuel r with
            | Some (x, r1) =>
                '(xs, r2) ← parse_elements (parse_value fuel) fuel r1;
                Some (JArr (x :: xs), r2)
            | None => r1 ← expect "]" r; Some (JArr [], r1)
            end
          else if Ascii.eqb c "{" then
            match parse_member (parse_value fuel) r with
            | Some (kv, r1) =>
                '(kvs, r2) ← parse_members (parse_value fuel) fuel r1;
                Some (JObj (kv :: kvs), r2)
            | None => r1 ← expect "}" r; Some (JObj [], r1)
            end
          else None
      end
  end.

Definition JSON_parse (s : string) : option JSON :=
  match parse_value (S (String.length s)) s with
  | Some (v, EmptyString) => Some v
  | _ => None
  end.

(** A text that [JSON.parse] rejects at its first character: it is not
    empty and begins with neither white space nor a character a JSON
    value begins with (a quote, a minus, a digit, a bracket, a brace, or
    the first letter of [true], [false] or [null]). *)
Definition cannot_begin_JSON (text : string) : bool :=
  match text with
  | EmptyString => false
  | String c _ =>
      let n := N_of_ascii c in
      negb (Ascii.is_space c || (n =? 32)%N || (n =? 34)%N || (n =? 45)%N
            || ((48 <=? n) && (n <=? 57))%N
            || (n =? 91)%N || (n =? 123)%N
            || (n =? 116)%N || (n =? 102)%N || (n =? 110)%N)
  end.

(** *** What the round trip of a JSON text rests on *)

Fixpoint all_chars (p : ascii -> bool) (s : string) : bool :=
  match s with
  | EmptyString => true
  | String c s' => p c && all_chars p s'
  end.

(** A text a number can be followed by: one that does not go on with a
    digit or a sign. *)
Definition delimited (s : string) : Prop :=
  match s with
  | EmptyString => True
  | String c _ => is_num_char c = false
  end.

(** The text of one member of an object. *)
Definition member_text (kv : string * JSON) : string :=
  quote (fst kv) +:+ String ":" (JSON_stringify (snd kv)).

(** [parse_elem] reads the text of [v] back, whatever delimited text follows. *)
Definition parses_back (parse_elem : string -> option (JSON * string)) (v : JSON) : Prop :=
  forall rest, delimited rest ->
    parse_elem (JSON_stringify v +:+ rest) = Some (v, rest).

(** [String(v)], the conversion a computed property name [o[v]] and a
    template literal apply. *)
Fixpoint to_string (v : JSON) : string :=
  match v with
  | JNull => "null"
  | JBool true => "true"
  | JBool false => "false"
  | JNum n => string_of_Z n
  | JStr s => s
  | JArr xs =>
      join_comma
        (map (fun x => match x with JNull => "" | _ => to_string x end) xs)
  | JObj _ => "[object Object]"
  end.

Definition string_of_nat (n : nat) : string := string_of_Z (Z.of_nat n).

(** ** The world of a request *)

(** The Mongoose models of [server/models]. *)
Inductive Model : Type :=
| Team | Player | Fixture | Standing | News | Transfer | Award | PlayerStat.

#[global] Instance Model_eq_dec : EqDecision Model.
Proof. solve_decision. Defined.

Definition Model_index (m : Model) : nat :=
  match m with
  | Team => 0 | Player => 1 | Fixture => 2 | Standing => 3
  | News => 4 | Transfer => 5 | Award => 6 | PlayerStat => 7
  end%nat.

Definition Model_of_index (n : nat) : option Model :=
  match n with
  | 0 => Some Team | 1 => Some Player | 2 => Some Fixture | 3 => Some Standing
  | 4 => Some News | 5 => Some Transfer | 6 => Some Award | 7 => Some PlayerStat
  | _ => None
  end%nat.

#[global] Program Instance Model_countable : Countable Model :=
  inj_countable Model_index Model_of_index _.
Next Obligation. by intros []. Qed.

(** An [Error] object. *)
Record JSError : Type := { err_name : string; message : string }.

Definition SyntaxError : JSError :=
  {| err_name := "SyntaxError"; message := "Unexpected token in JSON" |}.

Definition ReferenceError (x : string) : JSError :=
  {| err_name := "ReferenceError"; message := x +:+ " is not defined" |}.

(** A Mongoose document held by a handler: its [_id] and its fields. *)
Record Document : Type := { doc_id : string; doc_fields : Obj }.

(** [doc.toJSON()] of a document that was not populated. *)
Definition toJSON (d : Document) : JSON :=
  JObj (("_id", JStr (doc_id d)) :: doc_fields d).

(** The collections of the database, one document per model and [_id]. *)
Abbreviation Collections := (gmap (Model * string) Obj).

(** The Redis store: the value of a key and the time it expires at. *)
Abbreviation Store := (gmap string (string * nat)).

(** The operations a handler awaits: commands of the Redis client and
    queries of the Mongoose models. *)
Inductive IO : Type :=
| RedisGet (key : string)
| RedisSetex (key : string) (seconds : nat) (value : string)
| RedisDel (key : string)
| MongoFind (m : Model) (filter : Obj) (populate : list JSON) (sort : Obj)
| MongoFindById (m : Model) (id : string) (populate : list JSON)
| MongoSave (m : Model) (id : string) (fields : Obj)
| MongoFindByIdAndDelete (m : Model) (id : string)
| MongoPopulate (m : Model) (id : string) (populate : list JSON).

Inductive LogLevel : Type := Info | Error.

(** What a handler does that the outside sees, in the order it does it. *)
Inductive Event : Type :=
| Await (op : IO)
| Logged (level : LogLevel) (msg : string) (err : option JSError)
| Responded (status : nat) (body : JSON).

Record World : Type := {
  db : Collections;
  redis : Store;
  trace : list Event
}.

(** What a request finds around it: the clock (in seconds), and which
    awaited operations reject, with the error they reject with (a lost
    connection, a [CastError], a [ValidationError], ...). *)
Record Env : Type := {
  now : nat;
  rejects : IO -> option JSError
}.

(** What the handlers leave to Mongoose: how a query is evaluated, how
    references are populated, how a new document is built from its
    fields and what the [pre('save')] hooks do. *)
Class Mongoose : Type := {
  query_result : Model -> Obj -> list JSON -> Obj -> Collections -> list JSON;
  populated : Model -> list JSON -> Collections -> Document -> JSON;
  new_document : Model -> Obj -> Collections -> Document;
  pre_save : Model -> nat -> Obj -> Obj
}.

(** ** Asynchronous handler code *)

(** A block of an [async] function completes with a value, executes
    [return], or throws. *)
Inductive Outcome (A : Type) : Type :=
| Normal (a : A)
| Returned
| Thrown (e : JSError).
Arguments Normal {A} a.
Arguments Returned {A}.
Arguments Thrown {A} e.

Definition Async (A : Type) : Type := Env -> World -> Outcome A * World.

#[global] Instance Async_ret : MRet Async :=
  fun A a _ w => (Normal a, w).

#[global] Instance Async_bind : MBind Async :=
  fun A B f m env w =>
    match m env w with
    | (Normal a, w') => f a env w'
    | (Returned, w') => (Returned, w')
    | (Thrown e, w') => (Thrown e, w')
    end.

Definition throw {A} (e : JSError) : Async A := fun _ w => (Thrown e, w).

(** [return;] *)
Definition return_ {A} : Async A := fun _ w => (Returned, w).

(** [try { body } catch (e) { handler(e) }] *)
Definition try_catch {A} (body : Async A) (handler : JSError -> Async A) : Async A :=
  fun env w =>
    match body env w with
    | (Thrown e, w') => handler e env w'
    | r => r
    end.

(** [if (b) { m }] *)
Definition when_ (b : bool) (m : Async unit) : Async unit :=
  if b then m else mret tt.

Definition emit (e : Event) : Async unit :=
  fun _ w => (Normal tt, {| db := db w; redis := redis w; trace := trace w ++ [e] |}).

(** [await op]: the operation is issued, and rejects when the
    environment says so. *)
Definition await (op : IO) : Async unit :=
  fun env w =>
    let w' := {| db := db w; redis := redis w; trace := trace w ++ [Await op] |} in
    match rejects env op with
    | Some e => (Thrown e, w')
    | None => (Normal tt, w')
    end.

Definition get_db : Async Collections := fun _ w => (Normal (db w), w).
Definition put_db (d : Collections) : Async unit :=
  fun _ w => (Normal tt, {| db := d; redis := redis w; trace := trace w |}).
Definition get_redis : Async Store := fun _ w => (Normal (redis w), w).
Definition put_redis (s : Store) : Async unit :=
  fun _ w => (Normal tt, {| db := db w; redis := s; trace := trace w |}).
Definition get_now : Async nat := fun env w => (Normal (now env), w).

(** *** [logger] and [res] *)

Definition logger_info (msg : string) : Async unit := emit (Logged Info msg None).
Definition logger_error (msg : string) (e : JSError) : Async unit :=
  emit (Logged Error msg (Some e)).

(** [res.status(status).json(body)] *)
Definition res_status_json (status : nat) (body : JSON) : Async unit :=
  emit (Responded status body).

(** [res.json(body)] *)
Definition res_json (body : JSON) : Async unit := res_status_json 200 body.

(** [{ message: msg }] *)
Definition message_body (msg : string) : JSON := JObj [("message", JStr msg)].

(** [JSON.parse(s)], which throws a [SyntaxError]. *)
Definition JSON_parse_ (s : string) : Async JSON :=
  match JSON_parse s with
  | Some v => mret v
  | None => throw SyntaxError
  end.

(** *** The Redis client *)

(** The value a key holds at a given time: none once it has expired. *)
Definition redis_lookup (t : nat) (s : Store) (key : string) : option string :=
  match s !! key with
  | Some (v, expires) => if (t <? expires)%nat then Some v else None
  | None => None
  end.

(** [redisClient.get(key)]: the value, or [null]. *)
Definition redis_get (key : string) : Async (option string) :=
  await (RedisGet key);;
  t ← get_now; s ← get_redis;
  mret (redis_lookup t s key).

(** [redisClient.setex(key, seconds, value)] *)
Definition redis_setex (key : string) (seconds : nat) (value : string) : Async unit :=
  await (RedisSetex key seconds value);;
  t ← get_now; s ← get_redis;
  put_redis (<[key := (value, (t + seconds)%nat)]> s).

(** [redisClient.del(key)]: the command [DEL key], which removes the key
    of that very name. *)
Definition redis_del (key : string) : Async unit :=
  await (RedisDel key);;
  s ← get_redis;
  put_redis (delete key s).

(** [if (cached)] on what [get] gave: a string that is not empty. *)
Definition cache_hit (cached : option string) : bool :=
  match cached with
  | Some s => negb (String.eqb s "")
  | None => false
  end.

(** The string a hit holds ([cached] itself, where [cache_hit] says so). *)
Definition cached_text (cached : option string) : string :=
  match cached with Some s => s | None => "" end.

(** *** The Mongoose models *)

Section Models.
Context `{Mongoose}.

(** [Model.find(filter).populate(...).sort(sort)] *)
Definition Model_find (m : Model) (filter : Obj) (populate : list JSON) (sort : Obj)
  : Async (list JSON) :=
  await (MongoFind m filter populate sort);;
  d ← get_db;
  mret (query_result m filter populate sort d).

(** [Model.findById(id)]: the document, or [null]. *)
Definition Model_findById (m : Model) (id : string) : Async (option Document) :=
  await (MongoFindById m id []);;
  d ← get_db;
  mret ((fun fields => {| doc_id := id; doc_fields := fields |}) <$> d !! (m, id)).

(** [Model.findById(id).populate(...)]: the populated document, or [null]. *)
Definition Model_findById_populate (m : Model) (id : string) (populate : list JSON)
  : Async (option JSON) :=
  await (MongoFindById m id populate);;
  d ← get_db;
  mret ((fun fields => populated m populate d {| doc_id := id; doc_fields := fields |})
          <$> d !! (m, id)).

(** [new Model(fields)] *)
Definition Model_new (m : Model) (fields : Obj) : Async Document :=
  d ← get_db; mret (new_document m fields d).

(** [doc.save()]: the hooks run, the document is validated and written. *)
Definition doc_save (m : Model) (doc : Document) : Async Document :=
  t ← get_now;
  let fields := pre_save m t (doc_fields doc) in
  await (MongoSave m (doc_id doc) fields);;
  d ← get_db;
  put_db (<[(m, doc_id doc) := fields]> d);;
  mret {| doc_id := doc_id doc; doc_fields := fields |}.

(** [Model.findByIdAndDelete(id)]: the document removed, or [null]. *)
Definition Model_findByIdAndDelete (m : Model) (id : string) : Async (option Document) :=
  await (MongoFindByIdAndDelete m id);;
  d ← get_db;
  match d !! (m, id) with
  | Some fields =>
      put_db (delete (m, id) d);;
      mret (Some {| doc_id := id; doc_fields := fields |})
  | None => mret None
  end.

(** [await doc.populate(...)], and [await doc.populate(...).populate(...)]
    with the list of the chained paths: the operation is issued and the
    environment says what the [await] gives.  Where [doc.populate] returns
    a promise (Mongoose 6 and later) a chained call is a [TypeError],
    which is an environment that rejects the operation. *)
Definition doc_populate (m : Model) (doc : Document) (populate : list JSON)
  : Async JSON :=
  await (MongoPopulate m (doc_id doc) populate);;
  d ← get_db;
  mret (populated m populate d doc).
End Models.

(** ** Requests *)

Record Request : Type := {
  query : Obj;                      (* req.query *)
  params : list (string * string);  (* req.params *)
  body : Obj                        (* req.body *)
}.

(** [req.params.name] *)
Fixpoint param_lookup (ps : list (string * string)) (name : string) : string :=
  match ps with
  | [] => "undefined"
  | (k, v) :: ps' => if String.eqb k name then v else param_lookup ps' name
  end.

Definition param (req : Request) (name : string) : string :=
  param_lookup (params req) name.

(** [o.k = v] for a value read from the request, which may be [undefined]
    (a property that holds [undefined] shows in no query and no JSON text). *)
Definition assign (o : Obj) (k : string) (v : option JSON) : Obj :=
  match v with
  | Some x => obj_set o k x
  | None => o
  end.

(** The property name [o[v]] computes from [v]. *)
Definition prop_key (v : option JSON) : string :=
  match v with
  | Some x => to_string x
  | None => "undefined"
  end.

(** The object literal [{ k1, k2, ... }] of destructured request fields. *)
Fixpoint fields_of (l : list (string * option JSON)) : Obj :=
  match l with
  | [] => []
  | (k, v) :: l' => assign [] k v ++ fields_of l'
  end.

(** [updates.forEach((update) => doc[update] = req.body[update])] *)
Definition apply_updates (doc : Document) (updates : list string) (body : Obj)
  : Document :=
  {| doc_id := doc_id doc;
     doc_fields :=
       fold_left (fun fields update => assign fields update (obj_get body update))
                 updates (doc_fields doc) |}.

(** [updates.every((update) => allowedUpdates.includes(update))] *)
Definition isValidOperation (updates allowedUpdates : list string) : bool :=
  forallb (includes_key allowedUpdates) updates.

(** The arguments of [populate(path, select)], and of [populate] with a
    nested [populate] option. *)
Definition populate_path (path select : string) : JSON :=
  JObj [("path", JStr path); ("select", JStr select)].

Definition populate_nested (path select path' select' : string) : JSON :=
  JObj [("path", JStr path); ("select", JStr select);
        ("populate", JObj [("path", JStr path'); ("select", JStr select')])].

(** ** The routes *)

Section Routes.
Context `{Mongoose}.

(** *** [routes/transfers.js] *)

Definition transferTypes : list string :=
  ["Permanent"; "Loan"; "Free Transfer"; "End of Loan"].

Definition transfer_populate : list JSON :=
  [populate_path "player" "name photoUrl";
   populate_path "fromTeam" "name code crestUrl";
   populate_path "toTeam" "name code crestUrl"].

(** [router.get('/')] *)
Definition transfers_list (req : Request) : Async unit :=
  try_catch
    (let sortBy := obj_get (query req) "sortBy" in
     let sortOrder := obj_get (query req) "sortOrder" in
     let season := obj_get (query req) "season" in
     let transferType := obj_get (query req) "transferType" in
     let filter : Obj := [] in
     let sort : Obj := [("transferDate", JNum (-1))] in
     let filter := if truthy season then assign filter "season" season else filter in
     let filter :=
       if truthy transferType then assign filter "transferType" transferType
       else filter in
     let sort :=
       if truthy sortBy then
         let order := if is_string sortOrder "asc" then JNum 1 else JNum (-1) in
         if is_string sortBy "player.name" then obj_set sort "player.name" order
         else if is_string sortBy "fromTeam.name" then obj_set sort "fromTeam.name" order
         else if is_string sortBy "toTeam.name" then obj_set sort "toTeam.name" order
         else obj_set sort (prop_key sortBy) order
       else sort in
     let cacheKey := cacheKey "transfers" (query req) in
     logger_info ("Attempting to get transfers from cache for key: " +:+ cacheKey);;
     try_catch
       (cachedTransfers ← redis_get cacheKey;
        when_ (cache_hit cachedTransfers)
          (logger_info "Successfully retrieved cached transfers.";;
           parsed ← JSON_parse_ (cached_text cachedTransfers);
           res_json parsed;;
           return_))
       (fun cacheError =>
          logger_error ("Error parsing cached transfers for key " +:+ cacheKey +:+ ":")
            cacheError);;
     logger_info "Attempting to fetch transfers from database...";;
     transfers ← Model_find Transfer filter transfer_populate sort;
     logger_info ("Successfully fetched " +:+ string_of_nat (length transfers)
                  +:+ " transfers from database.");;
     logger_info ("Attempting to cache " +:+ string_of_nat (length transfers)
                  +:+ " transfers for key: " +:+ cacheKey);;
     redis_setex cacheKey 3600 (JSON_stringify (JArr transfers));;
     logger_info ("Successfully cached transfers for key: " +:+ cacheKey);;
     res_json (JArr transfers))
    (fun error =>
       logger_error "Error fetching transfers:" error;;
       res_status_json 500 (message_body "Error fetching transfers")).

(** [router.get('/:id')] *)
Definition transfers_get (req : Request) : Async unit :=
  try_catch
    (let cacheKey := entityKey "transfer" (param req "id") in
     try_catch
       (cachedTransfer ← redis_get cacheKey;
        when_ (cache_hit cachedTransfer)
          (logger_info ("Serving transfer from cache for key: " +:+ cacheKey);;
           parsed ← JSON_parse_ (cached_text cachedTransfer);
           res_json parsed;;
           return_))
       (fun cacheError =>
          logger_error ("Error parsing cached transfer for key " +:+ cacheKey +:+ ":")
            cacheError);;
     transfer ← Model_findById_populate Transfer (param req "id") transfer_populate;
     match transfer with
     | None =>
         res_status_json 404 (message_body "Transfer not found");; return_
     | Some transfer =>
         redis_setex cacheKey 3600 (JSON_stringify transfer);;
         logger_info ("Cached transfer for key: " +:+ cacheKey);;
         res_json transfer
     end)
    (fun error =>
       logger_error "Error fetching transfer by ID:" error;;
       res_status_json 500 (message_body "Error fetching transfer")).

(** [router.post('/', auth, ...)] *)
Definition transfers_post (req : Request) : Async unit :=
  try_catch
    (let player := obj_get (body req) "player" in
     let fromTeam := obj_get (body req) "fromTeam" in
     let toTeam := obj_get (body req) "toTeam" in
     let transferDate := obj_get (body req) "transferDate" in
     let fee := obj_get (body req) "fee" in
     let transferType := obj_get (body req) "transferType" in
     let season := obj_get (body req) "season" in
     when_ (negb (truthy player) || negb (truthy fromTeam) || negb (truthy toTeam)
            || negb (truthy transferDate) || negb (truthy transferType)
            || negb (truthy season))
       (res_status_json 400
          (message_body
             "Player, fromTeam, toTeam, transferDate, transferType, and season are required.");;
        return_);;
     when_ (negb (includes transferTypes transferType))
       (res_status_json 400 (message_body "Invalid transfer type.");; return_);;
     when_ (defined fee && not_a_number fee)
       (res_status_json 400 (message_body "Fee must be a number.");; return_);;
     newTransfer ← Model_new Transfer
       (fields_of [("player", player); ("fromTeam", fromTeam); ("toTeam", toTeam);
                   ("transferDate", transferDate); ("fee", fee);
                   ("transferType", transferType); ("season", season)]);
     newTransfer ← doc_save Transfer newTransfer;
     redis_del "transfers:*";;
     logger_info "Invalidated transfers cache after new transfer creation";;
     populatedTransfer ← doc_populate Transfer newTransfer transfer_populate;
     res_status_json 201 populatedTransfer)
    (fun error =>
       logger_error "Error creating transfer:" error;;
       res_status_json 400 (message_body (message error))).

(** [allowedUpdates] of the PATCH route below. *)
Definition transfers_allowedUpdates : list string :=
  ["player"; "fromTeam"; "toTeam"; "transferDate"; "fee"; "transferType"; "season"].

(** [router.patch('/:id', auth, ...)] *)
Definition transfers_patch (req : Request) : Async unit :=
  try_catch
    (let updates := Object_keys (body req) in
     let allowedUpdates := transfers_allowedUpdates in
     when_ (negb (isValidOperation updates allowedUpdates))
       (res_status_json 400 (message_body "Invalid updates!");; return_);;
     when_ (truthy (obj_get (body req) "transferType")
            && negb (includes transferTypes (obj_get (body req) "transferType")))
       (res_status_json 400 (message_body "Invalid transfer type.");; return_);;
     when_ (defined (obj_get (body req) "fee") && not_a_number (obj_get (body req) "fee"))
       (res_status_json 400 (message_body "Fee must be a number.");; return_);;
     transfer ← Model_findById Transfer (param req "id");
     match transfer with
     | None => res_status_json 404 (message_body "Transfer not found");; return_
     | Some transfer =>
         let transfer := apply_updates transfer updates (body req) in
         transfer ← doc_save Transfer transfer;
         redis_del (entityKey "transfer" (param req "id"));;
         redis_del "transfers:*";;
         logger_info ("Invalidated transfer cache for " +:+ param req "id"
                      +:+ " and all transfers cache after update");;
         populatedTransfer ← doc_populate Transfer transfer transfer_populate;
         res_json populatedTransfer
     end)
    (fun error =>
       logger_error "Error updating transfer:" error;;
       res_status_json 400 (message_body (message error))).

(** [router.delete('/:id', auth, ...)] *)
Definition transfers_delete (req : Request) : Async unit :=
  try_catch
    (transfer ← Model_findByIdAndDelete Transfer (param req "id");
     match transfer with
     | None => res_status_json 404 (message_body "Transfer not found");; return_
     | Some _ =>
         redis_del (entityKey "transfer" (param req "id"));;
         redis_del "transfers:*";;
         logger_info ("Invalidated transfer cache for " +:+ param req "id"
                      +:+ " and all transfers cache after deletion");;
         res_json (message_body "Transfer deleted successfully")
     end)
    (fun error =>
       logger_error "Error deleting transfer:" error;;
       res_status_json 500 (message_body "Error deleting transfer")).

(** *** [routes/awards.js] *)

Definition award_populate : list JSON :=
  [populate_nested "recipient" "name position playerNumber team"
                   "team" "name code crestUrl"].

(** [router.get('/')] *)
Definition awards_list (req : Request) : Async unit :=
  try_catch
    (let sortBy := obj_get (query req) "sortBy" in
     let sortOrder := obj_get (query req) "sortOrder" in
     let season := obj_get (query req) "season" in
     let recipient := obj_get (query req) "recipient" in
     let filter : Obj := [] in
     let sort : Obj := [("dateAwarded", JNum (-1))] in
     let filter := if truthy season then assign filter "season" season else filter in
     let filter :=
       if truthy recipient then assign filter "recipient" recipient else filter in
     let sort :=
       if truthy sortBy then
         let order := if is_string sortOrder "asc" then JNum 1 else JNum (-1) in
         if is_string sortBy "recipient.name" then obj_set sort "recipient.name" order
         else obj_set sort (prop_key sortBy) order
       else sort in
     let cacheKey := cacheKey "awards" (query req) in
     try_catch
       (cachedAwards ← redis_get cacheKey;
        when_ (cache_hit cachedAwards)
          (logger_info ("Serving awards from cache for key: " +:+ cacheKey);;
           parsed ← JSON_parse_ (cached_text cachedAwards);
           res_json parsed;;
           return_))
       (fun cacheError =>
          logger_error ("Error parsing cached awards for key " +:+ cacheKey +:+ ":")
            cacheError);;
     logger_info "Attempting to fetch awards from database...";;
     awards ← Model_find Award filter award_populate sort;
     logger_info ("Successfully fetched " +:+ string_of_nat (length awards)
                  +:+ " awards from database.");;
     redis_setex cacheKey 3600 (JSON_stringify (JArr awards));;
     logger_info ("Cached awards for key: " +:+ cacheKey);;
     res_json (JArr awards))
    (fun error =>
       logger_error "Error fetching awards:" error;;
       res_status_json 500 (message_body "Error fetching awards")).

(** [router.get('/:id')] *)
Definition awards_get (req : Request) : Async unit :=
  try_catch
    (let cacheKey := entityKey "award" (param req "id") in
     cachedAward ← redis_get cacheKey;
     when_ (cache_hit cachedAward)
       (logger_info ("Serving award from cache for key: " +:+ cacheKey);;
        parsed ← JSON_parse_ (cached_text cachedAward);
        res_json parsed;;
        return_);;
     award ← Model_findById_populate Award (param req "id") award_populate;
     match award with
     | None => res_status_json 404 (message_body "Award not found");; return_
     | Some award =>
         redis_setex cacheKey 3600 (JSON_stringify award);;
         logger_info ("Cached award for key: " +:+ cacheKey);;
         res_json award
     end)
    (fun error =>
       logger_error "Error fetching award by ID:" error;;
       res_status_json 500 (message_body "Error fetching award")).

(** [router.post('/', auth, ...)] *)
Definition awards_post (req : Request) : Async unit :=
  try_catch
    (let title := obj_get (body req) "title" in
     let description := obj_get (body req) "description" in
     let recipient := obj_get (body req) "recipient" in
     let season := obj_get (body req) "season" in
     let imageUrl := obj_get (body req) "imageUrl" in
     when_ (negb (truthy title) || negb (truthy season))
       (res_status_json 400 (message_body "Award title and season are required.");;
        return_);;
     newAward ← Model_new Award
       (fields_of [("title", title); ("description", description);
                   ("recipient", recipient); ("season", season);
                   ("imageUrl", imageUrl)]);
     newAward ← doc_save Award newAward;
     redis_del "awards:*";;
     logger_info "Invalidated awards cache after new award creation";;
     res_status_json 201 (toJSON newAward))
    (fun error =>
       logger_error "Error creating award:" error;;
       res_status_json 400 (message_body (message error))).

(** [allowedUpdates] of the PATCH route below. *)
Definition awards_allowedUpdates : list string :=
  ["title"; "description"; "recipient"; "season"; "dateAwarded"; "imageUrl"].

(** [router.patch('/:id', auth, ...)] *)
Definition awards_patch (req : Request) : Async unit :=
  try_catch
    (let updates := Object_keys (body req) in
     let allowedUpdates := awards_allowedUpdates in
     when_ (negb (isValidOperation updates allowedUpdates))
       (res_status_json 400 (message_body "Invalid updates!");; return_);;
     award ← Model_findById Award (param req "id");
     match award with
     | None => res_status_json 404 (message_body "Award not found");; return_
     | Some award =>
         let award := apply_updates award updates (body req) in
         award ← doc_save Award award;
         redis_del (entityKey "award" (param req "id"));;
         redis_del "awards:*";;
         logger_info ("Invalidated award cache for " +:+ param req "id"
                      +:+ " and all awards cache after update");;
         res_json (toJSON award)
     end)
    (fun error =>
       logger_error "Error updating award:" error;;
       res_status_json 400 (message_body (message error))).

(** [router.delete('/:id', auth, ...)] *)
Definition awards_delete (req : Request) : Async unit :=
  try_catch
    (award ← Model_findByIdAndDelete Award (param req "id");
     match award with
     | None => res_status_json 404 (message_body "Award not found");; return_
     | Some _ =>
         redis_del (entityKey "award" (param req "id"));;
         redis_del "awards:*";;
         logger_info ("Invalidated award cache for " +:+ param req "id"
                      +:+ " and all awards cache after deletion");;
         res_json (message_body "Award deleted successfully")
     end)
    (fun error =>
       logger_error "Error deleting award:" error;;
       res_status_json 500 (message_body "Error deleting award")).

(** *** [routes/playerStats.js] *)

Definition playerStat_populate : list JSON :=
  [populate_nested "player" "name position playerNumber team"
                   "team" "name code crestUrl"].

(** [router.get('/')] *)
Definition playerStats_list (req : Request) : Async unit :=
  try_catch
    (let sortBy := obj_get (query req) "sortBy" in
     let sortOrder := obj_get (query req) "sortOrder" in
     let sort : Obj := [] in
     let sort :=
       if truthy sortBy then
         let order := if is_string sortOrder "desc" then JNum (-1) else JNum 1 in
         if is_string sortBy "player.name" then obj_set sort "player.name" order
         else obj_set sort (prop_key sortBy) order
       else
         obj_set (obj_set (obj_set (obj_set sort "goals" (JNum (-1)))
                                   "assists" (JNum (-1)))
                          "appearances" (JNum (-1)))
                 "player.name" (JNum 1) in
     let cacheKey := cacheKey "playerStats" (query req) in
     cachedPlayerStats ← redis_get cacheKey;
     when_ (cache_hit cachedPlayerStats)
       (logger_info ("Serving player stats from cache for key: " +:+ cacheKey);;
        parsed ← JSON_parse_ (cached_text cachedPlayerStats);
        res_json parsed;;
        return_);;
     playerStats ← Model_find PlayerStat [] playerStat_populate sort;
     redis_setex cacheKey 3600 (JSON_stringify (JArr playerStats));;
     logger_info ("Cached player stats for key: " +:+ cacheKey);;
     res_json (JArr playerStats))
    (fun error =>
       logger_error "Error fetching player statistics:" error;;
       res_status_json 500 (message_body "Error fetching player statistics")).

(** [router.get('/:id')] *)
Definition playerStats_get (req : Request) : Async unit :=
  try_catch
    (let cacheKey := entityKey "playerStat" (param req "id") in
     cachedPlayerStat ← redis_get cacheKey;
     when_ (cache_hit cachedPlayerStat)
       (logger_info ("Serving player stat from cache for key: " +:+ cacheKey);;
        parsed ← JSON_parse_ (cached_text cachedPlayerStat);
        res_json parsed;;
        return_);;
     playerStat ← Model_findById_populate PlayerStat (param req "id") playerStat_populate;
     match playerStat with
     | None =>
         res_status_json 404 (message_body "Player statistic not found");; return_
     | Some playerStat =>
         redis_setex cacheKey 3600 (JSON_stringify playerStat);;
         logger_info ("Cached player stat for key: " +:+ cacheKey);;
         res_json playerStat
     end)
    (fun error =>
       logger_error "Error fetching player statistic by ID:" error;;
       res_status_json 500 (message_body "Error fetching player statistic")).

(** [router.post('/', auth, ...)] *)
Definition playerStats_post (req : Request) : Async unit :=
  try_catch
    (let player := obj_get (body req) "player" in
     let goals := obj_get (body req) "goals" in
     let assists := obj_get (body req) "assists" in
     let appearances := obj_get (body req) "appearances" in
     let minutesPlayed := obj_get (body req) "minutesPlayed" in
     let cleanSheets := obj_get (body req) "cleanSheets" in
     let yellowCards := obj_get (body req) "yellowCards" in
     let redCards := obj_get (body req) "redCards" in
     when_ (negb (truthy player))
       (res_status_json 400 (message_body "Player ID is required.");; return_);;
     newPlayerStat ← Model_new PlayerStat
       (fields_of [("player", player); ("goals", goals); ("assists", assists);
                   ("appearances", appearances); ("minutesPlayed", minutesPlayed);
                   ("cleanSheets", cleanSheets); ("yellowCards", yellowCards);
                   ("redCards", redCards)]);
     newPlayerStat ← doc_save PlayerStat newPlayerStat;
     redis_del "playerStats:*";;
     logger_info "Invalidated player stats cache after new stat creation";;
     res_status_json 201 (toJSON newPlayerStat))
    (fun error =>
       logger_error "Error creating player statistic:" error;;
       res_status_json 400 (message_body (message error))).

(** [allowedUpdates] of the PATCH route below. *)
Definition playerStats_allowedUpdates : list string :=
  ["goals"; "assists"; "appearances";
   "minutesPlayed"; "cleanSheets"; "yellowCards"; "redCards"].

(** [router.patch('/:id', auth, ...)] *)
Definition playerStats_patch (req : Request) : Async unit :=
  try_catch
    (let updates := Object_keys (body req) in
     let allowedUpdates := playerStats_allowedUpdates in
     when_ (negb (isValidOperation updates allowedUpdates))
       (res_status_json 400 (message_body "Invalid updates!");; return_);;
     playerStat ← Model_findById PlayerStat (param req "id");
     match playerStat with
     | None =>
         res_status_json 404 (message_body "Player statistic not found");; return_
     | Some playerStat =>
         let playerStat := apply_updates playerStat updates (body req) in
         playerStat ← doc_save PlayerStat playerStat;
         redis_del (entityKey "playerStat" (param req "id"));;
         redis_del "playerStats:*";;
         logger_info ("Invalidated player stat cache for " +:+ param req "id"
                      +:+ " and all player stats cache after update");;
         res_json (toJSON playerStat)
     end)
    (fun error =>
       logger_error "Error updating player statistic:" error;;
       res_status_json 400 (message_body (message error))).

(** [router.delete('/:id', auth, ...)] *)
Definition playerStats_delete (req : Request) : Async unit :=
  try_catch
    (playerStat ← Model_findByIdAndDelete PlayerStat (param req "id");
     match playerStat with
     | None =>
         res_status_json 404 (message_body "Player statistic not found");; return_
     | Some _ =>
         redis_del (entityKey "playerStat" (param req "id"));;
         redis_del "playerStats:*";;
         logger_info ("Invalidated player stat cache for " +:+ param req "id"
                      +:+ " and all player stats cache after deletion");;
         res_json (message_body "Player statistic deleted successfully")
     end)
    (fun error =>
       logger_error "Error deleting player statistic:" error;;
       res_status_json 500 (message_body "Error deleting player statistic")).

(** *** [routes/news.js] *)

Definition newsTypes : list string :=
  ["transfer"; "milestone"; "highlight"; "general"; "injury"; "match_report"].

Definition news_populate : list JSON :=
  [populate_path "player" "name photoUrl";
   populate_path "team" "name code crestUrl"].

(** [router.get('/')] *)
Definition news_list (req : Request) : Async unit :=
  try_catch
    (let sortBy := obj_get (query req) "sortBy" in
     let sortOrder := obj_get (query req) "sortOrder" in
     let type := obj_get (query req) "type" in
     let player := obj_get (query req) "player" in
     let team := obj_get (query req) "team" in
     let filter : Obj := [] in
     let sort : Obj := [("date", JNum (-1))] in
     let filter := if truthy type then assign filter "type" type else filter in
     let filter := if truthy player then assign filter "player" player else filter in
     let filter := if truthy team then assign filter "team" team else filter in
     let sort :=
       if truthy sortBy then
         let order := if is_string sortOrder "asc" then JNum 1 else JNum (-1) in
         if is_string sortBy "player.name" then obj_set sort "player.name" order
         else if is_string sortBy "team.name" then obj_set sort "team.name" order
         else obj_set sort (prop_key sortBy) order
       else sort in
     let cacheKey := cacheKey "news" (query req) in
     try_catch
       (cachedNews ← redis_get cacheKey;
        when_ (cache_hit cachedNews)
          (logger_info ("Serving news from cache for key: " +:+ cacheKey);;
           parsed ← JSON_parse_ (cached_text cachedNews);
           res_json parsed;;
           return_))
       (fun cacheError =>
          logger_error ("Error parsing cached news for key " +:+ cacheKey +:+ ":")
            cacheError);;
     logger_info "Attempting to fetch news from database...";;
     news ← Model_find News filter news_populate sort;
     logger_info ("Successfully fetched " +:+ string_of_nat (length news)
                  +:+ " news articles from database.");;
     redis_setex cacheKey 3600 (JSON_stringify (JArr news));;
     logger_info ("Cached news for key: " +:+ cacheKey);;
     res_json (JArr news))
    (fun error =>
       logger_error "Error fetching news:" error;;
       res_status_json 500 (message_body "Error fetching news")).

(** [router.get('/:id')] *)
Definition news_get (req : Request) : Async unit :=
  try_catch
    (let cacheKey := entityKey "news" (param req "id") in
     try_catch
       (cachedNewsArticle ← redis_get cacheKey;
        when_ (cache_hit cachedNewsArticle)
          (logger_info ("Serving news article from cache for key: " +:+ cacheKey);;
           parsed ← JSON_parse_ (cached_text cachedNewsArticle);
           res_json parsed;;
           return_))
       (fun cacheError =>
          logger_error
            ("Error parsing cached news article for key " +:+ cacheKey +:+ ":")
            cacheError);;
     newsArticle ← Model_findById_populate News (param req "id") news_populate;
     match newsArticle with
     | None => res_status_json 404 (message_body "News article not found");; return_
     | Some newsArticle =>
         redis_setex cacheKey 3600 (JSON_stringify newsArticle);;
         logger_info ("Cached news article for key: " +:+ cacheKey);;
         res_json newsArticle
     end)
    (fun error =>
       logger_error "Error fetching news article by ID:" error;;
       res_status_json 500 (message_body "Error fetching news article")).

(** [router.post('/', auth, ...)] *)
Definition news_post (req : Request) : Async unit :=
  try_catch
    (let title := obj_get (body req) "title" in
     let content := obj_get (body req) "content" in
     let author := obj_get (body req) "author" in
     let date := obj_get (body req) "date" in
     let type := obj_get (body req) "type" in
     let player := obj_get (body req) "player" in
     let team := obj_get (body req) "team" in
     let imageUrl := obj_get (body req) "imageUrl" in
     when_ (negb (truthy title) || negb (truthy content) || negb (truthy author)
            || negb (truthy date) || negb (truthy type))
       (res_status_json 400
          (message_body "Title, content, author, date, and type are required.");;
        return_);;
     when_ (negb (includes newsTypes type))
       (res_status_json 400 (message_body "Invalid news type.");; return_);;
     newNews ← Model_new News
       (fields_of [("title", title); ("content", content); ("author", author);
                   ("date", date); ("type", type); ("player", player);
                   ("team", team); ("imageUrl", imageUrl)]);
     newNews ← doc_save News newNews;
     redis_del "news:*";;
     logger_info "Invalidated news cache after new news creation";;
     populatedNews ← doc_populate News newNews news_populate;
     res_status_json 201 populatedNews)
    (fun error =>
       logger_error "Error creating news:" error;;
       res_status_json 400 (message_body (message error))).

(** [allowedUpdates] of the PATCH route below. *)
Definition news_allowedUpdates : list string :=
  ["title"; "content"; "author"; "date"; "type"; "player"; "team"; "imageUrl"].

(** [router.patch('/:id', auth, ...)] *)
Definition news_patch (req : Request) : Async unit :=
  try_catch
    (let updates := Object_keys (body req) in
     let allowedUpdates := news_allowedUpdates in
     when_ (negb (isValidOperation updates allowedUpdates))
       (res_status_json 400 (message_body "Invalid updates!");; return_);;
     when_ (truthy (obj_get (body req) "type")
            && negb (includes newsTypes (obj_get (body req) "type")))
       (res_status_json 400 (message_body "Invalid news type.");; return_);;
     newsArticle ← Model_findById News (param req "id");
     match newsArticle with
     | None => res_status_json 404 (message_body "News article not found");; return_
     | Some newsArticle =>
         let newsArticle := apply_updates newsArticle updates (body req) in
         newsArticle ← doc_save News newsArticle;
         redis_del (entityKey "news" (param req "id"));;
         redis_del "news:*";;
         logger_info ("Invalidated news cache for " +:+ param req "id"
                      +:+ " and all news cache after update");;
         populatedNews ← doc_populate News newsArticle news_populate;
         res_json populatedNews
     end)
    (fun error =>
       logger_error "Error updating news:" error;;
       res_status_json 400 (message_body (message error))).

(** [router.delete('/:id', auth, ...)] *)
Definition news_delete (req : Request) : Async unit :=
  try_catch
    (newsArticle ← Model_findByIdAndDelete News (param req "id");
     match newsArticle with
     | None => res_status_json 404 (message_body "News article not found");; return_
     | Some _ =>
         redis_del (entityKey "news" (param req "id"));;
         redis_del "news:*";;
         logger_info ("Invalidated news cache for " +:+ param req "id"
                      +:+ " and all news cache after deletion");;
         res_json (message_body "News article deleted successfully")
     end)
    (fun error =>
       logger_error "Error deleting news:" error;;
       res_status_json 500 (message_body "Error deleting news article")).

(** *** [routes/players.js] *)

Definition player_populate : list JSON := [populate_path "team" "name code"].

(** [router.get('/')] *)
Definition players_list (req : Request) : Async unit :=
  try_catch
    (let position := obj_get (query req) "position" in
     let team := obj_get (query req) "team" in
     let sortBy := obj_get (query req) "sortBy" in
     let sortOrder := obj_get (query req) "sortOrder" in
     let cacheKey := cacheKey "players" (query req) in
     cachedPlayers ← redis_get cacheKey;
     when_ (cache_hit cachedPlayers)
       (logger_info ("Serving players from cache for key: " +:+ cacheKey);;
        parsed ← JSON_parse_ (cached_text cachedPlayers);
        res_json parsed;;
        return_);;
     let query : Obj := [] in
     let sort : Obj := [] in
     let query := if truthy position then assign query "position" position else query in
     let query := if truthy team then assign query "team" team else query in
     let sort :=
       if truthy sortBy then
         let order := if is_string sortOrder "desc" then JNum (-1) else JNum 1 in
         obj_set sort (prop_key sortBy) order
       else obj_set sort "name" (JNum 1) in
     players ← Model_find Player query player_populate sort;
     redis_setex cacheKey 3600 (JSON_stringify (JArr players));;
     logger_info ("Cached players for key: " +:+ cacheKey);;
     res_json (JArr players))
    (fun error =>
       logger_error "Error fetching players:" error;;
       res_status_json 500 (message_body "Error fetching players")).

(** [router.get('/:id')] *)
Definition players_get (req : Request) : Async unit :=
  try_catch
    (player ← Model_findById_populate Player (param req "id") player_populate;
     match player with
     | None => res_status_json 404 (message_body "Player not found");; return_
     | Some player => res_json player
     end)
    (fun error =>
       logger_error "Error fetching player by ID:" error;;
       res_status_json 500 (message_body "Error fetching player")).

(** [router.get('/team/:teamId')] *)
Definition players_by_team (req : Request) : Async unit :=
  try_catch
    (players ← Model_find Player [("team", JStr (param req "teamId"))]
                          player_populate [];
     res_json (JArr players))
    (fun error =>
       logger_error "Error fetching players by team ID:" error;;
       res_status_json 500 (message_body "Error fetching players for team")).

(** [router.post('/', auth, ...)] *)
Definition players_post (req : Request) : Async unit :=
  try_catch
    (let name := obj_get (body req) "name" in
     let team := obj_get (body req) "team" in
     let position := obj_get (body req) "position" in
     let playerNumber := obj_get (body req) "playerNumber" in
     let photoUrl := obj_get (body req) "photoUrl" in
     when_ (negb (truthy name) || negb (truthy team) || negb (truthy position))
       (res_status_json 400
          (message_body "Name, team, and position are required fields.");;
        return_);;
     let validPositions := ["Goalkeeper"; "Defender"; "Midfielder"; "Forward"] in
     when_ (negb (includes validPositions position))
       (res_status_json 400 (message_body "Invalid player position.");; return_);;
     when_ (defined playerNumber && not_a_number playerNumber)
       (res_status_json 400 (message_body "Player number must be a number.");;
        return_);;
     newPlayer ← Model_new Player
       (fields_of [("name", name); ("team", team); ("position", position);
                   ("playerNumber", playerNumber); ("photoUrl", photoUrl)]);
     newPlayer ← doc_save Player newPlayer;
     populatedPlayer ← doc_populate Player newPlayer player_populate;
     res_status_json 201 populatedPlayer)
    (fun error =>
       logger_error "Error creating player:" error;;
       res_status_json 400 (message_body (message error))).

(** [allowedUpdates] of the PATCH route below. *)
Definition players_allowedUpdates : list string :=
  ["name"; "team"; "position"; "playerNumber"; "photoUrl"].

(** [router.patch('/:id', auth, ...)].  [validPositions] is a constant of
    the POST handler: here the name is not bound, and evaluating it
    (when [req.body.position] is truthy) throws. *)
Definition players_patch (req : Request) : Async unit :=
  try_catch
    (let updates := Object_keys (body req) in
     let allowedUpdates := players_allowedUpdates in
     when_ (negb (isValidOperation updates allowedUpdates))
       (res_status_json 400
          (message_body
             "Invalid updates! Only name, team, position, playerNumber, photoUrl are allowed.");;
        return_);;
     when_ (truthy (obj_get (body req) "position"))
       (throw (ReferenceError "validPositions"));;
     when_ (defined (obj_get (body req) "playerNumber")
            && not_a_number (obj_get (body req) "playerNumber"))
       (res_status_json 400 (message_body "Player number must be a number.");;
        return_);;
     player ← Model_findById Player (param req "id");
     match player with
     | None => res_status_json 404 (message_body "Player not found");; return_
     | Some player =>
         let player := apply_updates player updates (body req) in
         player ← doc_save Player player;
         populatedPlayer ← doc_populate Player player player_populate;
         res_json populatedPlayer
     end)
    (fun error =>
       logger_error "Error updating player:" error;;
       res_status_json 400 (message_body (message error))).

(** [router.delete('/:id', auth, ...)] *)
Definition players_delete (req : Request) : Async unit :=
  try_catch
    (player ← Model_findByIdAndDelete Player (param req "id");
     match player with
     | None => res_status_json 404 (message_body "Player not found");; return_
     | Some _ => res_json (message_body "Player deleted successfully")
     end)
    (fun error =>
       logger_error "Error deleting player:" error;;
       res_status_json 500 (message_body "Error deleting player")).

(** *** [routes/teams.js] *)

(** [router.get('/')] *)
Definition teams_list (req : Request) : Async unit :=
  try_catch
    (teams ← Model_find Team [] [] [];
     res_json (JArr teams))
    (fun error =>
       logger_error "Error fetching teams:" error;;
       res_status_json 500 (message_body "Error fetching teams")).

(** [router.get('/:id')] *)
Definition teams_get (req : Request) : Async unit :=
  try_catch
    (team ← Model_findById Team (param req "id");
     match team with
     | None => res_status_json 404 (message_body "Team not found");; return_
     | Some team => res_json (toJSON team)
     end)
    (fun error =>
       logger_error "Error fetching team by ID:" error;;
       res_status_json 500 (message_body "Error fetching team")).

(** [router.post('/', auth, ...)] *)
Definition teams_post (req : Request) : Async unit :=
  try_catch
    (let name := obj_get (body req) "name" in
     let code := obj_get (body req) "code" in
     let crestUrl := obj_get (body req) "crestUrl" in
     let jerseyUrl := obj_get (body req) "jerseyUrl" in
     let founded := obj_get (body req) "founded" in
     when_ (negb (truthy name) || negb (truthy code))
       (res_status_json 400 (message_body "Team name and code are required fields.");;
        return_);;
     when_ (defined founded && not_a_number founded)
       (res_status_json 400 (message_body "Founded year must be a number.");;
        return_);;
     newTeam ← Model_new Team
       (fields_of [("name", name); ("code", code); ("crestUrl", crestUrl);
                   ("jerseyUrl", jerseyUrl); ("founded", founded)]);
     newTeam ← doc_save Team newTeam;
     res_status_json 201 (toJSON newTeam))
    (fun error =>
       logger_error "Error creating team:" error;;
       res_status_json 400 (message_body (message error))).

(** [allowedUpdates] of the PATCH route below. *)
Definition teams_allowedUpdates : list string :=
  ["name"; "code"; "crestUrl"; "jerseyUrl"; "founded"].

(** [router.patch('/:id', auth, ...)] *)
Definition teams_patch (req : Request) : Async unit :=
  try_catch
    (let updates := Object_keys (body req) in
     let allowedUpdates := teams_allowedUpdates in
     when_ (negb (isValidOperation updates allowedUpdates))
       (res_status_json 400
          (message_body
             "Invalid updates! Only name, code, crestUrl, jerseyUrl, founded are allowed.");;
        return_);;
     when_ (defined (obj_get (body req) "founded")
            && not_a_number (obj_get (body req) "founded"))
       (res_status_json 400 (message_body "Founded year must be a number.");;
        return_);;
     team ← Model_findById Team (param req "id");
     match team with
     | None => res_status_json 404 (message_body "Team not found");; return_
     | Some team =>
         let team := apply_updates team updates (body req) in
         team ← doc_save Team team;
         res_json (toJSON team)
     end)
    (fun error =>
       logger_error "Error updating team:" error;;
       res_status_json 400 (message_body (message error))).

(** [router.delete('/:id', auth, ...)] *)
Definition teams_delete (req : Request) : Async unit :=
  try_catch
    (team ← Model_findByIdAndDelete Team (param req "id");
     match team with
     | None => res_status_json 404 (message_body "Team not found");; return_
     | Some _ => res_json (message_body "Team deleted successfully")
     end)
    (fun error =>
       logger_error "Error deleting team:" error;;
       res_status_json 500 (message_body "Error deleting team")).

(** *** [routes/standings.js] *)

Definition standing_populate : list JSON :=
  [populate_path "team" "name code crestUrl"].

(** [router.get('/')] *)
Definition standings_list (req : Request) : Async unit :=
  try_catch
    (let sortBy := obj_get (query req) "sortBy" in
     let sortOrder := obj_get (query req) "sortOrder" in
     let sort : Obj := [] in
     let sort :=
       if truthy sortBy then
         let order := if is_string sortOrder "desc" then JNum (-1) else JNum 1 in
         if is_string sortBy "name" then obj_set sort "team.name" order
         else obj_set sort (prop_key sortBy) order
       else
         obj_set (obj_set (obj_set (obj_set sort "points" (JNum (-1)))
                                   "goalDifference" (JNum (-1)))
                          "goalsFor" (JNum (-1)))
                 "team.name" (JNum 1) in
     standings ← Model_find Standing [] standing_populate sort;
     res_json (JArr standings))
    (fun error =>
       logger_error "Error fetching standings:" error;;
       res_status_json 500 (message_body "Error fetching standings")).

(** [router.get('/:id')] *)
Definition standings_get (req : Request) : Async unit :=
  try_catch
    (standing ← Model_findById_populate Standing (param req "id") standing_populate;
     match standing with
     | None => res_status_json 404 (message_body "Standing not found");; return_
     | Some standing => res_json standing
     end)
    (fun error =>
       logger_error "Error fetching standing by ID:" error;;
       res_status_json 500 (message_body "Error fetching standing")).

(** [router.post('/', auth, ...)] *)
Definition standings_post (req : Request) : Async unit :=
  try_catch
    (let team := obj_get (body req) "team" in
     let played := obj_get (body req) "played" in
     let wins := obj_get (body req) "wins" in
     let draws := obj_get (body req) "draws" in
     let losses := obj_get (body req) "losses" in
     let goalsFor := obj_get (body req) "goalsFor" in
     let goalsAgainst := obj_get (body req) "goalsAgainst" in
     let goalDifference := obj_get (body req) "goalDifference" in
     let points := obj_get (body req) "points" in
     when_ (negb (truthy team) || negb (defined played) || negb (defined wins)
            || negb (defined draws) || negb (defined losses)
            || negb (defined goalsFor) || negb (defined goalsAgainst)
            || negb (defined goalDifference) || negb (defined points))
       (res_status_json 400 (message_body "All standing fields are required.");;
        return_);;
     when_ (not_a_number played || not_a_number wins || not_a_number draws
            || not_a_number losses || not_a_number goalsFor
            || not_a_number goalsAgainst || not_a_number goalDifference
            || not_a_number points)
       (res_status_json 400 (message_body "Standing fields must be numbers.");;
        return_);;
     newStanding ← Model_new Standing
       (fields_of [("team", team); ("played", played); ("wins", wins);
                   ("draws", draws); ("losses", losses); ("goalsFor", goalsFor);
                   ("goalsAgainst", goalsAgainst);
                   ("goalDifference", goalDifference); ("points", points)]);
     newStanding ← doc_save Standing newStanding;
     res_status_json 201 (toJSON newStanding))
    (fun error =>
       logger_error "Error creating standing:" error;;
       res_status_json 400 (message_body (message error))).

(** [allowedUpdates] of the PATCH route below. *)
Definition standings_allowedUpdates : list string :=
  ["team"; "played"; "wins"; "draws";
   "losses"; "goalsFor"; "goalsAgainst"; "goalDifference"; "points"].

(** [router.patch('/:id', auth, ...)] *)
Definition standings_patch (req : Request) : Async unit :=
  try_catch
    (let updates := Object_keys (body req) in
     let allowedUpdates := standings_allowedUpdates in
     when_ (negb (isValidOperation updates allowedUpdates))
       (res_status_json 400 (message_body "Invalid updates!");; return_);;
     match
       find (fun update =>
               not_a_number (obj_get (body req) update)
               && negb (String.eqb update "team")) updates
     with
     | Some update =>
         res_status_json 400
           (message_body ("Field " +:+ update +:+ " must be a number."));;
         return_
     | None => mret tt
     end;;
     standing ← Model_findById Standing (param req "id");
     match standing with
     | None => res_status_json 404 (message_body "Standing not found");; return_
     | Some standing =>
         let standing := apply_updates standing updates (body req) in
         standing ← doc_save Standing standing;
         res_json (toJSON standing)
     end)
    (fun error =>
       logger_error "Error updating standing:" error;;
       res_status_json 400 (message_body (message error))).

(** [router.delete('/:id', auth, ...)] *)
Definition standings_delete (req : Request) : Async unit :=
  try_catch
    (standing ← Model_findByIdAndDelete Standing (param req "id");
     match standing with
     | None => res_status_json 404 (message_body "Standing not found");; return_
     | Some _ => res_json (message_body "Standing deleted successfully")
     end)
    (fun error =>
       logger_error "Error deleting standing:" error;;
       res_status_json 500 (message_body "Error deleting standing")).

(** *** [routes/fixtures.js] *)

Fixpoint skip_space (s : string) : string :=
  match s with
  | EmptyString => ""
  | String c r => if Ascii.is_space c then skip_space r else s
  end.

(** The value of the longest prefix of digits of the radix, if any. *)
Fixpoint digits_value (radix : N) (acc : option N) (s : string) : option N :=
  match s with
  | EmptyString => acc
  | String c r =>
      match hex_value c with
      | Some d =>
          if (d <? radix)%N
          then digits_value radix (Some (radix * default 0 acc + d))%N r
          else acc
      | None => acc
      end
  end.

(** [parseInt(v)]; [JNull] stands for [NaN], which is what a JSON text
    shows of it.  The value is the integer the digits denote (beyond 2^53
    a JavaScript number rounds it). *)
Definition parseInt (v : option JSON) : JSON :=
  let s := skip_space (prop_key v) in
  let '(negative, s) :=
    match s with
    | String c r =>
        if Ascii.eqb c "-" then (true, r)
        else if Ascii.eqb c "+" then (false, r)
        else (false, s)
    | EmptyString => (false, s)
    end in
  let '(radix, s) :=
    match s with
    | String c (String x r) =>
        if Ascii.eqb c "0" && (Ascii.eqb x "x" || Ascii.eqb x "X")
        then (16%N, r) else (10%N, s)
    | _ => (10%N, s)
    end in
  match digits_value radix None s with
  | Some n => JNum (if negative then - Z.of_N n else Z.of_N n)
  | None => JNull
  end.

Definition fixture_populate : list JSON :=
  [populate_path "teamA.teamId" "name code crestUrl";
   populate_path "teamB.teamId" "name code crestUrl"].

(** [router.get('/')] *)
Definition fixtures_list (req : Request) : Async unit :=
  try_catch
    (let matchweek := obj_get (query req) "matchweek" in
     let teamId := obj_get (query req) "teamId" in
     let sortBy := obj_get (query req) "sortBy" in
     let sortOrder := obj_get (query req) "sortOrder" in
     let query : Obj := [] in
     let sort : Obj := [] in
     let query :=
       if truthy matchweek then obj_set query "matchweek" (parseInt matchweek)
       else query in
     let query :=
       match teamId with
       | Some id =>
           if truthy teamId
           then obj_set query "$or"
                  (JArr [JObj [("teamA.teamId", id)]; JObj [("teamB.teamId", id)]])
           else query
       | None => query
       end in
     let sort :=
       if truthy sortBy then
         let order := if is_string sortOrder "desc" then JNum (-1) else JNum 1 in
         obj_set sort (prop_key sortBy) order
       else obj_set (obj_set sort "date" (JNum 1)) "time" (JNum 1) in
     fixtures ← Model_find Fixture query fixture_populate sort;
     res_json (JArr fixtures))
    (fun error =>
       logger_error "Error fetching fixtures:" error;;
       res_status_json 500 (message_body "Error fetching fixtures")).

(** [router.get('/:id')] *)
Definition fixtures_get (req : Request) : Async unit :=
  try_catch
    (fixture ← Model_findById_populate Fixture (param req "id")
                 (fixture_populate
                  ++ [populate_path "teamsheets.players.playerId" "name position team"]);
     match fixture with
     | None => res_status_json 404 (message_body "Fixture not found");; return_
     | Some fixture => res_json fixture
     end)
    (fun error =>
       logger_error "Error fetching fixture by ID:" error;;
       res_status_json 500 (message_body "Error fetching fixture")).

(** [router.post('/', auth, ...)] *)
Definition fixtures_post (req : Request) : Async unit :=
  try_catch
    (let matchweek := obj_get (body req) "matchweek" in
     let date := obj_get (body req) "date" in
     let time := obj_get (body req) "time" in
     let venue := obj_get (body req) "venue" in
     let teamA := obj_get (body req) "teamA" in
     let teamB := obj_get (body req) "teamB" in
     let status := obj_get (body req) "status" in
     let teamsheets := obj_get (body req) "teamsheets" in
     when_ (negb (truthy matchweek) || negb (truthy date) || negb (truthy time)
            || negb (truthy venue) || negb (truthy teamA) || negb (truthy teamB))
       (res_status_json 400
          (message_body
             "Matchweek, date, time, venue, Team A, and Team B are required.");;
        return_);;
     newFixture ← Model_new Fixture
       (fields_of [("matchweek", matchweek); ("date", date); ("time", time);
                   ("venue", venue); ("teamA", teamA); ("teamB", teamB);
                   ("status", status); ("teamsheets", teamsheets)]);
     newFixture ← doc_save Fixture newFixture;
     res_status_json 201 (toJSON newFixture))
    (fun error =>
       logger_error "Error creating fixture:" error;;
       res_status_json 400 (message_body (message error))).

(** [allowedUpdates] of the PATCH route below. *)
Definition fixtures_allowedUpdates : list string :=
  ["matchweek"; "date"; "time"; "venue"; "teamA"; "teamB"; "status"; "teamsheets"].

(** [router.patch('/:id', auth, ...)] *)
Definition fixtures_patch (req : Request) : Async unit :=
  try_catch
    (let updates := Object_keys (body req) in
     let allowedUpdates := fixtures_allowedUpdates in
     when_ (negb (isValidOperation updates allowedUpdates))
       (res_status_json 400 (message_body "Invalid updates!");; return_);;
     fixture ← Model_findById Fixture (param req "id");
     match fixture with
     | None => res_status_json 404 (message_body "Fixture not found");; return_
     | Some fixture =>
         let fixture := apply_updates fixture updates (body req) in
         fixture ← doc_save Fixture fixture;
         res_json (toJSON fixture)
     end)
    (fun error =>
       logger_error "Error updating fixture:" error;;
       res_status_json 400 (message_body (message error))).

(** [router.delete('/:id', auth, ...)] *)
Definition fixtures_delete (req : Request) : Async unit :=
  try_catch
    (fixture ← Model_findByIdAndDelete Fixture (param req "id");
     match fixture with
     | None => res_status_json 404 (message_body "Fixture not found");; return_
     | Some _ => res_json (message_body "Fixture deleted successfully")
     end)
    (fun error =>
       logger_error "Error deleting fixture:" error;;
       res_status_json 500 (message_body "Error deleting fixture")).

(** *** The routers *)

(** The routes [server.js] mounts, one per [router.METHOD(path, ...)]. *)
Inductive Route : Type :=
| PlayersList | PlayersGet | PlayersByTeam | PlayersPost | PlayersPatch | PlayersDelete
| TeamsList | TeamsGet | TeamsPost | TeamsPatch | TeamsDelete
| StandingsList | StandingsGet | StandingsPost | StandingsPatch | StandingsDelete
| FixturesList | FixturesGet | FixturesPost | FixturesPatch | FixturesDelete
| PlayerStatsList | PlayerStatsGet | PlayerStatsPost | PlayerStatsPatch | PlayerStatsDelete
| NewsList | NewsGet | NewsPost | NewsPatch | NewsDelete
| TransfersList | TransfersGet | TransfersPost | TransfersPatch | TransfersDelete
| AwardsList | AwardsGet | AwardsPost | AwardsPatch | AwardsDelete.

Definition handler (r : Route) : Request -> Async unit :=
  match r with
  | PlayersList => players_list | PlayersGet => players_get
  | PlayersByTeam => players_by_team | PlayersPost => players_post
  | PlayersPatch => players_patch | PlayersDelete => players_delete
  | TeamsList => teams_list | TeamsGet => teams_get | TeamsPost => teams_post
  | TeamsPatch => teams_patch | TeamsDelete => teams_delete
  | StandingsList => standings_list | StandingsGet => standings_get
  | StandingsPost => standings_post | StandingsPatch => standings_patch
  | StandingsDelete => standings_delete
  | FixturesList => fixtures_list | FixturesGet => fixtures_get
  | FixturesPost => fixtures_post | FixturesPatch => fixtures_patch
  | FixturesDelete => fixtures_delete
  | PlayerStatsList => playerStats_list | PlayerStatsGet => playerStats_get
  | PlayerStatsPost => playerStats_post | PlayerStatsPatch => playerStats_patch
  | PlayerStatsDelete => playerStats_delete
  | NewsList => news_list | NewsGet => news_get | NewsPost => news_post
  | NewsPatch => news_patch | NewsDelete => news_delete
  | TransfersList => transfers_list | TransfersGet => transfers_get
  | TransfersPost => transfers_post | TransfersPatch => transfers_patch
  | TransfersDelete => transfers_delete
  | AwardsList => awards_list | AwardsGet => awards_get | AwardsPost => awards_post
  | AwardsPatch => awards_patch | AwardsDelete => awards_delete
  end.

(** The world a request leaves behind. *)
Definition serve (r : Route) (req : Request) (env : Env) (w : World) : World :=
  snd (handler r req env w).

End Routes.

(** ** What a request is seen to do *)

(** The events a request added to the trace of [w] on its way to [w']. *)
Definition effects (w w' : World) : list Event :=
  drop (length (trace w)) (trace w').

(** [record e w]: the world once [e] has happened. *)
Definition record (e : Event) (w : World) : World :=
  {| db := db w; redis := redis w; trace := trace w ++ [e] |}.

(** [t] with the events of [evs] appended one by one, as a handler does. *)
Definition snoc_all (t evs : list Event) : list Event :=
  fold_left (fun t e => t ++ [e]) evs t.

(** The response the client receives: the first one sent. *)
Definition response (evs : list Event) : option (nat * JSON) :=
  head (omap (fun e => match e with Responded s b => Some (s, b) | _ => None end) evs).

Definition is_response (e : Event) : bool :=
  match e with Responded _ _ => true | _ => false end.

(** A 2xx status. *)
Definition success (status : nat) : bool := (status <? 300)%nat.

(** The queries that read documents: what a cached read saves. *)
Definition is_load (e : Event) : bool :=
  match e with
  | Await (MongoFind _ _ _ _) | Await (MongoFindById _ _ _) => true
  | _ => false
  end.

Definition loads (evs : list Event) : nat := length (filter (fun e => is_load e = true) evs).

(** The operations that change a collection. *)
Definition is_mutation (op : IO) : bool :=
  match op with
  | MongoSave _ _ _ | MongoFindByIdAndDelete _ _ => true
  | _ => false
  end.

Definition is_redis (e : Event) : bool :=
  match e with
  | Await (RedisGet _) | Await (RedisSetex _ _ _) | Await (RedisDel _) => true
  | _ => false
  end.

(** The keys of the [DEL] commands among the events, in order. *)
Definition dels (evs : list Event) : list string :=
  omap (fun e => match e with Await (RedisDel k) => Some k | _ => None end) evs.

(** The [SETEX] commands among the events: key, seconds and value. *)
Definition setexs (evs : list Event) : list (string * nat * string) :=
  omap (fun e => match e with Await (RedisSetex k s v) => Some (k, s, v) | _ => None end)
       evs.

(** The operations awaited among the events, in order. *)
Definition awaited (evs : list Event) : list IO :=
  omap (fun e => match e with Await op => Some op | _ => None end) evs.

(** [op] is awaited and does not reject. *)
Definition accepted (env : Env) (op : IO) : bool :=
  match rejects env op with
  | None => true
  | Some _ => false
  end.

(** The order of a write that invalidates: the mutation is committed
    ([committed]), then keys are deleted ([invalidated]), then the
    success response goes out, after which Redis is not called and
    nothing more is sent. *)
Fixpoint write_order (env : Env) (committed invalidated : bool) (evs : list Event) : bool :=
  match evs with
  | [] => true
  | Await op :: evs' =>
      if is_mutation op then
        write_order env (committed || accepted env op) invalidated evs'
      else
        match op with
        | RedisDel _ => committed && write_order env committed true evs'
        | _ => write_order env committed invalidated evs'
        end
  | Responded status _ :: evs' =>
      (if success status then invalidated else true)
      && forallb (fun e => negb (is_redis e || is_response e)) evs'
  | Logged _ _ _ :: evs' => write_order env committed invalidated evs'
  end.

(** Every [DEL] is issued after a mutation that was committed, and before
    any response. *)
Definition invalidation_follows_commit (env : Env) (evs : list Event) : Prop :=
  forall pre k post, evs = pre ++ Await (RedisDel k) :: post ->
    (exists op, In (Await op) pre /\ is_mutation op = true /\ rejects env op = None)
    /\ Forall (fun e => is_response e = false) pre.

(** A success response goes out only after a [DEL] was issued. *)
Definition response_follows_invalidation (evs : list Event) : Prop :=
  forall pre status body post, evs = pre ++ Responded status body :: post ->
    success status = true -> exists k, In (Await (RedisDel k)) pre.

(** *** What each route is written to do with the cache *)

(** The allow-list of each PATCH route. *)
Definition allowedUpdates_of (r : Route) : option (list string) :=
  match r with
  | PlayersPatch => Some players_allowedUpdates
  | TeamsPatch => Some teams_allowedUpdates
  | StandingsPatch => Some standings_allowedUpdates
  | FixturesPatch => Some fixtures_allowedUpdates
  | PlayerStatsPatch => Some playerStats_allowedUpdates
  | NewsPatch => Some news_allowedUpdates
  | TransfersPatch => Some transfers_allowedUpdates
  | AwardsPatch => Some awards_allowedUpdates
  | _ => None
  end.

(** The keys each route passes to [redisClient.del], in order. *)
Definition invalidated_keys (r : Route) (req : Request) : list string :=
  match r with
  | TransfersPost => ["transfers:*"]
  | TransfersPatch | TransfersDelete =>
      [entityKey "transfer" (param req "id"); "transfers:*"]
  | AwardsPost => ["awards:*"]
  | AwardsPatch | AwardsDelete => [entityKey "award" (param req "id"); "awards:*"]
  | PlayerStatsPost => ["playerStats:*"]
  | PlayerStatsPatch | PlayerStatsDelete =>
      [entityKey "playerStat" (param req "id"); "playerStats:*"]
  | NewsPost => ["news:*"]
  | NewsPatch | NewsDelete => [entityKey "news" (param req "id"); "news:*"]
  | _ => []
  end.

(** The routes that create, update or delete a document. *)
Definition is_write (r : Route) : bool :=
  match r with
  | PlayersPost | PlayersPatch | PlayersDelete
  | TeamsPost | TeamsPatch | TeamsDelete
  | StandingsPost | StandingsPatch | StandingsDelete
  | FixturesPost | FixturesPatch | FixturesDelete
  | PlayerStatsPost | PlayerStatsPatch | PlayerStatsDelete
  | NewsPost | NewsPatch | NewsDelete
  | TransfersPost | TransfersPatch | TransfersDelete
  | AwardsPost | AwardsPatch | AwardsDelete => true
  | _ => false
  end.

(** The writes of the routers that call [redisClient.del]. *)
Definition invalidates (r : Route) : bool :=
  match r with
  | PlayerStatsPost | PlayerStatsPatch | PlayerStatsDelete
  | NewsPost | NewsPatch | NewsDelete
  | TransfersPost | TransfersPatch | TransfersDelete
  | AwardsPost | AwardsPatch | AwardsDelete => true
  | _ => false
  end.

(** The routers that do not import the Redis client. *)
Definition uncached_router (r : Route) : bool :=
  match r with
  | TeamsList | TeamsGet | TeamsPost | TeamsPatch | TeamsDelete
  | StandingsList | StandingsGet | StandingsPost | StandingsPatch | StandingsDelete
  | FixturesList | FixturesGet | FixturesPost | FixturesPatch | FixturesDelete => true
  | _ => false
  end.

(** The key a cached read looks its answer up under. *)
Definition lookup_key (r : Route) (req : Request) : option string :=
  match r with
  | PlayersList => Some (cacheKey "players" (query req))
  | PlayerStatsList => Some (cacheKey "playerStats" (query req))
  | PlayerStatsGet => Some (entityKey "playerStat" (param req "id"))
  | NewsList => Some (cacheKey "news" (query req))
  | NewsGet => Some (entityKey "news" (param req "id"))
  | TransfersList => Some (cacheKey "transfers" (query req))
  | TransfersGet => Some (entityKey "transfer" (param req "id"))
  | AwardsList => Some (cacheKey "awards" (query req))
  | AwardsGet => Some (entityKey "award" (param req "id"))
  | _ => None
  end.

(** The cached reads whose lookup sits in a [try] block of its own. *)
Definition guarded_lookup (r : Route) : bool :=
  match r with
  | NewsList | NewsGet | TransfersList | TransfersGet | AwardsList => true
  | _ => false
  end.

(** The model a cached read by id loads its document from. *)
Definition entity_model (r : Route) : option Model :=
  match r with
  | PlayerStatsGet => Some PlayerStat
  | NewsGet => Some News
  | TransfersGet => Some Transfer
  | AwardsGet => Some Award
  | _ => None
  end.

(** The HTTP method of each route. *)
Inductive Method : Type := GET | POST | PATCH | DELETE.

Definition method_of (r : Route) : Method :=
  match r with
  | PlayersList | PlayersGet | PlayersByTeam | TeamsList | TeamsGet
  | StandingsList | StandingsGet | FixturesList | FixturesGet
  | PlayerStatsList | PlayerStatsGet | NewsList | NewsGet
  | TransfersList | TransfersGet | AwardsList | AwardsGet => GET
  | PlayersPost | TeamsPost | StandingsPost | FixturesPost
  | PlayerStatsPost | NewsPost | TransfersPost | AwardsPost => POST
  | PlayersPatch | TeamsPatch | StandingsPatch | FixturesPatch
  | PlayerStatsPatch | NewsPatch | TransfersPatch | AwardsPatch => PATCH
  | PlayersDelete | TeamsDelete | StandingsDelete | FixturesDelete
  | PlayerStatsDelete | NewsDelete | TransfersDelete | AwardsDelete => DELETE
  end.

(** The model whose router a route belongs to. *)
Definition model_of (r : Route) : Model :=
  match r with
  | PlayersList | PlayersGet | PlayersByTeam | PlayersPost | PlayersPatch
  | PlayersDelete => Player
  | TeamsList | TeamsGet | TeamsPost | TeamsPatch | TeamsDelete => Team
  | StandingsList | StandingsGet | StandingsPost | StandingsPatch
  | StandingsDelete => Standing
  | FixturesList | FixturesGet | FixturesPost | FixturesPatch
  | FixturesDelete => Fixture
  | PlayerStatsList | PlayerStatsGet | PlayerStatsPost | PlayerStatsPatch
  | PlayerStatsDelete => PlayerStat
  | NewsList | NewsGet | NewsPost | NewsPatch | NewsDelete => News
  | TransfersList | TransfersGet | TransfersPost | TransfersPatch
  | TransfersDelete => Transfer
  | AwardsList | AwardsGet | AwardsPost | AwardsPatch | AwardsDelete => Award
  end.

(** The routes [GET /] (and [GET /team/:teamId]), which answer with a list. *)
Definition lists (r : Route) : bool :=
  match r with
  | PlayersList | PlayersByTeam | TeamsList | StandingsList | FixturesList
  | PlayerStatsList | NewsList | TransfersList | AwardsList => true
  | _ => false
  end.

(** The statuses the code of a route passes to [res.status] ([res.json]
    alone sends 200). *)
Definition statuses (r : Route) : list nat :=
  match method_of r with
  | GET => if lists r then [200; 500] else [200; 404; 500]
  | POST => [201; 400]
  | PATCH => [200; 400; 404]
  | DELETE => [200; 404; 500]
  end%nat.

(** The fields of the body each POST route tests with [!field] before
    it builds a document. *)
Definition required_fields (r : Route) : list string :=
  match r with
  | PlayersPost => ["name"; "team"; "position"]
  | TeamsPost => ["name"; "code"]
  | StandingsPost => ["team"]
  | FixturesPost => ["matchweek"; "date"; "time"; "venue"; "teamA"; "teamB"]
  | PlayerStatsPost => ["player"]
  | NewsPost => ["title"; "content"; "author"; "date"; "type"]
  | TransfersPost =>
      ["player"; "fromTeam"; "toTeam"; "transferDate"; "transferType"; "season"]
  | AwardsPost => ["title"; "season"]
  | _ => []
  end.

(** The responses sent, in order. *)
Definition responses (evs : list Event) : list (nat * JSON) :=
  omap (fun e => match e with Responded s b => Some (s, b) | _ => None end) evs.

(** [op] is a mutation the database took. *)
Definition committed (env : Env) (op : IO) : Prop :=
  is_mutation op = true /\ rejects env op = None.

(** *** How a cached read can go *)

(** The read is answered 500 and has neither queried the database nor
    touched the store. *)
Definition read_fails (w w' : World) (evs : list Event) : Prop :=
  (exists msg, response evs = Some (500%nat, message_body msg))
  /\ loads evs = 0%nat /\ setexs evs = [] /\ redis w' = redis w.

(** The read is answered from the store. *)
Definition read_hits (payload : JSON) (w w' : World) (evs : list Event) : Prop :=
  response evs = Some (200%nat, payload)
  /\ loads evs = 0%nat /\ setexs evs = [] /\ redis w' = redis w.

(** The read queries the database, once: the query rejects, or finds no
    document of that id, or gives a payload that is written under [key]
    for an hour and sent when Redis took it. *)
Definition read_loads (r : Route) (req : Request) (env : Env) (key : string)
    (w w' : World) (evs : list Event) : Prop :=
  loads evs = 1%nat
  /\ ((exists op e, In (Await op) evs /\ is_load (Await op) = true
                   /\ rejects env op = Some e
                   /\ (exists msg, response evs = Some (500%nat, message_body msg))
                   /\ setexs evs = [] /\ redis w' = redis w)
      \/ (exists m msg, entity_model r = Some m
                        /\ db w !! (m, param req "id") = None
                        /\ response evs = Some (404%nat, message_body msg)
                        /\ setexs evs = [] /\ redis w' = redis w)
      \/ (exists payload,
            (forall m, entity_model r = Some m -> db w !! (m, param req "id") <> None)
            /\ setexs evs = [(key, 3600%nat, JSON_stringify payload)]
            /\ match rejects env (RedisSetex key 3600 (JSON_stringify payload)) with
               | Some e =>
                   (exists msg, response evs = Some (500%nat, message_body msg))
                   /\ (exists msg, In (Logged Error msg (Some e)) evs)
                   /\ redis w' = redis w
               | None =>
                   response evs = Some (200%nat, payload)
                   /\ redis w' =
                      <[key := (JSON_stringify payload, (now env + 3600)%nat)]> (redis w)
               end)).

(** What the code does with a lookup that did not give a value it can
    send: a route whose lookup has a [try] block of its own goes on to the
    database, the others answer 500. *)
Definition read_falls_back (r : Route) (req : Request) (env : Env) (key : string)
    (w w' : World) (evs : list Event) : Prop :=
  if guarded_lookup r then read_loads r req env key w w' evs else read_fails w w' evs.

(** The ways of a cached read, by what its lookup gives. *)
Definition cached_read (r : Route) (req : Request) (env : Env) (key : string)
    (w w' : World) : Prop :=
  let evs := effects w w' in
  db w' = db w
  /\ match rejects env (RedisGet key) with
     | Some _ => read_falls_back r req env key w w' evs
     | None =>
         let cached := redis_lookup (now env) (redis w) key in
         if cache_hit cached then
           match JSON_parse (cached_text cached) with
           | Some payload => read_hits payload w w' evs
           | None => read_falls_back r req env key w w' evs
           end
         else read_loads r req env key w w' evs
     end.




(** *** What every request does *)

(** One response is sent, with a status of the route. *)
Definition answered_once (r : Route) (w w' : World) : Prop :=
  exists status body,
    responses (effects w w') = [(status, body)] /\ In status (statuses r).

(** The database is as it was, unless a [save] or a [findByIdAndDelete]
    was taken; a GET awaits neither. *)
Definition changes_by_commit (r : Route) (env : Env) (w w' : World) : Prop :=
  let evs := effects w w' in
  (db w' = db w \/ exists op, In (Await op) evs /\ committed env op)
  /\ (method_of r = GET ->
      db w' = db w /\ Forall (fun op => is_mutation op = false) (awaited evs)).

(** *** Writes by id *)

(** The answer is 404, [op] is all that was awaited, and the database and
    the store are as they were. *)
Definition reports_missing (op : IO) (w w' : World) : Prop :=
  let evs := effects w w' in
  (exists msg, response evs = Some (404%nat, message_body msg))
  /\ awaited evs = [op] /\ db w' = db w /\ redis w' = redis w.

(** A DELETE whose [findByIdAndDelete] is taken: the document is removed,
    or there is none and that is what is answered. *)
Definition deletes (r : Route) (req : Request) (w w' : World) : Prop :=
  let m := model_of r in
  let id := param req "id" in
  match db w !! (m, id) with
  | Some _ => db w' = delete (m, id) (db w)
  | None => reports_missing (MongoFindByIdAndDelete m id) w w'
  end.

(** A PATCH that got as far as [findById]. *)
Definition patch_finds_nothing (r : Route) (req : Request) (w w' : World) : Prop :=
  let op := MongoFindById (model_of r) (param req "id") [] in
  In (Await op) (effects w w') -> reports_missing op w w'.

(** A [DEL] that rejects comes after a mutation that was taken, and the
    answer is an error. *)
Definition invalidation_failure_is_answered (env : Env) (w w' : World) : Prop :=
  let evs := effects w w' in
  forall k e, In (Await (RedisDel k)) evs -> rejects env (RedisDel k) = Some e ->
    (exists op, In (Await op) evs /\ committed env op)
    /\ exists status msg,
         response evs = Some (status, message_body msg) /\ success status = false.

(** A write that answers with success has left none of the keys it names
    in the store. *)
Definition clears_its_keys (r : Route) (req : Request) (w w' : World) : Prop :=
  forall status body,
    response (effects w w') = Some (status, body) -> success status = true ->
    Forall (fun k => redis w' !! k = None) (invalidated_keys r req).

(** ** Reasoning about handler code *)

(** [wp m env w Q]: running [m] from [w] ends in an outcome and a world
    that satisfy [Q]. *)
Definition wp {A} (m : Async A) (env : Env) (w : World)
  (Q : Outcome A -> World -> Prop) : Prop :=
  Q (m env w).1 (m env w).2.

(** [keeps R m]: every run of [m] relates the world it starts from to the
    one it ends in. *)
Definition keeps (R : Env -> World -> World -> Prop) {A} (m : Async A) : Prop :=
  forall env w, R env w (m env w).2.

(** [extends P w w']: [w'] has the trace of [w] and then events that
    satisfy [P]. *)
Definition extends (P : Event -> Prop) (w w' : World) : Prop :=
  exists evs, trace w' = trace w ++ evs /\ Forall P evs.

Definition ttl_3600 (e : Event) : Prop :=
  match e with
  | Await (RedisSetex _ seconds _) => seconds = 3600%nat
  | _ => True
  end.

(** What a request that starts at [now env] may leave in the store: the
    entries it found, and entries that expire an hour later. *)
Definition written_now (env : Env) (s s' : Store) : Prop :=
  forall k v e, s' !! k = Some (v, e) ->
    s !! k = Some (v, e) \/ e = (now env + 3600)%nat.

Definition hourly (env : Env) (w w' : World) : Prop :=
  extends ttl_3600 w w' /\ written_now env (redis w) (redis w').

Definition no_redis (e : Event) : Prop := is_redis e = false.

(** ** A small deployment to run requests in *)

Module Demo.

(** Equality of two values, by their JSON texts. *)
Definition same_value (a b : JSON) : bool :=
  String.eqb (JSON_stringify a) (JSON_stringify b).

Definition matches (filter fields : Obj) : bool :=
  forallb (fun kv =>
             match obj_get fields (fst kv) with
             | Some v => same_value v (snd kv)
             | None => false
             end) filter.

(** An [ObjectId] as a string: 24 hexadecimal digits. *)
Definition is_ObjectId (s : string) : bool :=
  (String.length s =? 24)%nat
  && all_chars (fun c => match hex_value c with Some _ => true | None => false end) s.

Fixpoint zeros (n : nat) : string :=
  match n with
  | O => ""
  | S n => String "0" (zeros n)
  end.

(** The id of the [n]-th document created. *)
Definition object_id (n : nat) : string :=
  let digits := string_of_nat n in
  "65" +:+ zeros (22 - String.length digits) +:+ digits.

(** A Mongoose that finds the documents whose fields equal those of the
    filter, in the order of their ids, leaves references as they are
    stored and names new documents by their number. *)
#[local] Instance mongoose : Mongoose := {|
  query_result m filter _ _ d :=
    omap (fun kv =>
            match kv with
            | ((m', id), fields) =>
                if bool_decide (m' = m) && matches filter fields
                then Some (toJSON {| doc_id := id; doc_fields := fields |})
                else None
            end) (map_to_list d);
  populated _ _ _ doc := toJSON doc;
  new_document _ fields d :=
    {| doc_id := object_id (size d); doc_fields := fields |};
  pre_save _ _ fields := fields
|}.

Definition redisError : JSError :=
  {| err_name := "Error"; message := "connect ECONNREFUSED 127.0.0.1:6379" |}.

(** The paths of each schema that hold an [ObjectId] (those of the team
    sheets of a fixture, which are nested, are left out). *)
Definition refs (m : Model) : list string :=
  match m with
  | Player => ["team"]
  | Standing => ["team"]
  | PlayerStat => ["player"]
  | News => ["player"; "team"]
  | Transfer => ["player"; "fromTeam"; "toTeam"]
  | Award => ["recipient"]
  | Team | Fixture => []
  end.

Definition castError (path value : string) : JSError :=
  {| err_name := "CastError";
     message := "Cast to ObjectId failed for value " +:+ quote value
                +:+ " (type string) at path " +:+ quote path |}.

(** The first path of [paths] at which [fields] holds a string that is
    no [ObjectId]. *)
Definition miscast (paths : list string) (fields : Obj) : option JSError :=
  head (omap (fun path =>
                match obj_get fields path with
                | Some (JStr value) =>
                    if is_ObjectId value then None else Some (castError path value)
                | _ => None
                end) paths).

Definition chainError : JSError :=
  {| err_name := "TypeError";
     message := "doc.populate(...).populate is not a function" |}.

(** What Mongoose (6 and later) rejects of itself, with the database
    answering: an id or a reference that is no [ObjectId], and a chain of
    [populate] calls on a document (the message of the [TypeError] names
    the document by its variable, which [doc] stands for). *)
Definition mongoose_rejects (op : IO) : option JSError :=
  match op with
  | MongoFind m filter _ _ => miscast (refs m) filter
  | MongoFindById _ id _ | MongoFindByIdAndDelete _ id =>
      if is_ObjectId id then None else Some (castError "_id" id)
  | MongoSave m _ fields => miscast (refs m) fields
  | MongoPopulate _ _ paths =>
      if (1 <? length paths)%nat then Some chainError else None
  | RedisGet _ | RedisSetex _ _ _ | RedisDel _ => None
  end.

(** Redis and the database answer. *)
Definition calm (t : nat) : Env := {| now := t; rejects := mongoose_rejects |}.

(** Redis is unreachable: each of its commands rejects. *)
Definition redis_down (t : nat) : Env :=
  {| now := t;
     rejects := fun op =>
       match op with
       | RedisGet _ | RedisSetex _ _ _ | RedisDel _ => Some redisError
       | _ => mongoose_rejects op
       end |}.

(** Redis takes reads and deletions but no writes. *)
Definition redis_read_only (t : nat) : Env :=
  {| now := t;
     rejects := fun op =>
       match op with
       | RedisSetex _ _ _ => Some redisError
       | _ => mongoose_rejects op
       end |}.

(** Redis rejects [get] and takes the rest. *)
Definition get_rejected (t : nat) : Env :=
  {| now := t;
     rejects := fun op =>
       match op with
       | RedisGet _ => Some redisError
       | _ => mongoose_rejects op
       end |}.

(** Redis answers [get] but rejects [del]. *)
Definition del_rejected (t : nat) : Env :=
  {| now := t;
     rejects := fun op =>
       match op with
       | RedisDel _ => Some redisError
       | _ => mongoose_rejects op
       end |}.

Definition empty_world : World := {| db := ∅; redis := ∅; trace := [] |}.

(** A store whose entry for the list of players is not a JSON text. *)
Definition corrupt_players : World :=
  {| db := ∅; redis := {[ cacheKey "players" [] := ("<html>", 3600%nat) ]};
     trace := [] |}.

(** The same for the list of transfers. *)
Definition corrupt_transfers : World :=
  {| db := ∅; redis := {[ cacheKey "transfers" [] := ("<html>", 3600%nat) ]};
     trace := [] |}.

(** Ids: of a transfer and an award that exist, of one that does not,
    and of a player and two teams. *)
Definition x1 : string := "64b7f0c2a1d3e4f5a6b7c801".
Definition a1 : string := "64b7f0c2a1d3e4f5a6b7c8e1".
Definition x9 : string := "64b7f0c2a1d3e4f5a6b7c809".
Definition p1 : string := "64b7f0c2a1d3e4f5a6b7c8a1".
Definition t1 : string := "64b7f0c2a1d3e4f5a6b7c8b1".
Definition t2 : string := "64b7f0c2a1d3e4f5a6b7c8b2".

Definition dragons : Obj := [("name", JStr "Dragons"); ("code", JStr "DRA")].

Definition loan : Obj :=
  [("player", JStr p1); ("fromTeam", JStr t1); ("toTeam", JStr t2);
   ("transferDate", JStr "2024-01-15"); ("transferType", JStr "Loan");
   ("season", JStr "2023/2024")].

Definition trophy : Obj :=
  [("title", JStr "Golden Boot"); ("season", JStr "2023/2024")].

(** A database with one transfer, [x1]. *)
Definition one_transfer : World :=
  {| db := {[ (Transfer, x1) := loan ]}; redis := ∅; trace := [] |}.


(** A database with one award, [a1]. *)
Definition one_award : World :=
  {| db := {[ (Award, a1) := trophy ]}; redis := ∅; trace := [] |}.

Definition request (q : Obj) (id : string) (b : Obj) : Request :=
  {| query := q; params := [("id", id)]; body := b |}.

End Demo.

(** * Properties *)

(** ** [JSON.parse] reads back what [JSON.stringify] writes *)

Lemma str_app_cons c s t : String c s +:+ t = String c (s +:+ t).
Proof. reflexivity. Qed.

Lemma str_app_assoc s t u : (s +:+ t) +:+ u = s +:+ (t +:+ u).
Proof. induction s as [|c s IH]; [done|]. by rewrite !str_app_cons, IH. Qed.

Lemma str_length_app s t :
  String.length (s +:+ t) = (String.length s + String.length t)%nat.
Proof. induction s as [|c s IH]; [done|]. rewrite str_app_cons. simpl. by rewrite IH. Qed.

(** *** String literals *)

Lemma parse_chars_escape_char c fuel t :
  parse_chars (S fuel) (escape_char c +:+ t)
  = '(str, r) ← parse_chars fuel t; Some (String c str, r).
Proof.
  destruct c as [[] [] [] [] [] [] [] []]; try reflexivity.
  all: destruct fuel; reflexivity.
Qed.

Lemma escape_char_length c : (1 <= String.length (escape_char c))%nat.
Proof. destruct c as [[] [] [] [] [] [] [] []]; vm_compute; lia. Qed.

Lemma escape_length s : (String.length s <= String.length (escape s))%nat.
Proof.
  induction s as [|c s IH]; [done|]. simpl. rewrite str_length_app.
  pose proof (escape_char_length c). lia.
Qed.

Lemma parse_chars_escape s : forall fuel rest,
  (String.length s < fuel)%nat ->
  parse_chars fuel (escape s +:+ String "034" rest) = Some (s, rest).
Proof.
  induction s as [|c s IH]; intros fuel rest Hfuel.
  - destruct fuel; [simpl in Hfuel; lia|]. reflexivity.
  - destruct fuel as [|fuel]; [simpl in Hfuel; lia|].
    simpl escape. rewrite str_app_assoc, parse_chars_escape_char.
    rewrite IH by (simpl in Hfuel; lia). reflexivity.
Qed.

Lemma parse_string_escape s rest :
  parse_string (escape s +:+ String "034" rest) = Some (s, rest).
Proof.
  apply parse_chars_escape. rewrite str_length_app. simpl.
  pose proof (escape_length s). lia.
Qed.

(** *** Numbers *)

Lemma span_num_app p r :
  all_chars is_num_char p = true -> delimited r -> span_num (p +:+ r) = (p, r).
Proof.
  intros Hp Hr. induction p as [|c p IH].
  - change ("" +:+ r) with r. destruct r as [|c r]; [done|]. simpl in *. by rewrite Hr.
  - simpl in Hp. apply andb_true_iff in Hp as [Hc Hp]. rewrite str_app_cons. simpl.
    by rewrite Hc, IH.
Qed.

Lemma digits_num d : all_chars is_num_char (NilEmpty.string_of_uint d) = true.
Proof. induction d; simpl; auto. Qed.

Lemma string_of_Z_num n : all_chars is_num_char (string_of_Z n) = true.
Proof.
  unfold string_of_Z, NilZero.string_of_int, NilZero.string_of_uint.
  destruct (Z.to_int n) as [d|d]; destruct d; simpl; auto using digits_num.
Qed.

Lemma int_of_string_of_Z n :
  NilZero.int_of_string (string_of_Z n) = Some (Z.to_int n).
Proof.
  unfold string_of_Z. apply NilZero.isi; destruct n; simpl; try discriminate.
  all: intros [= H]; by apply Unsigned.to_uint_nonnil in H.
Qed.

Lemma parse_number_string_of_Z n rest :
  delimited rest -> parse_number (string_of_Z n +:+ rest) = Some (n, rest).
Proof.
  intros Hr. unfold parse_number.
  rewrite span_num_app by auto using string_of_Z_num.
  rewrite int_of_string_of_Z. simpl. rewrite DecimalZ.of_to.
  by rewrite String.eqb_refl.
Qed.

Lemma string_of_Z_head n :
  exists c s, string_of_Z n = String c s /\ is_num_char c = true.
Proof.
  pose proof (string_of_Z_num n) as H.
  destruct (string_of_Z n) as [|c s] eqn:E.
  - exfalso. pose proof (int_of_string_of_Z n) as Hi. rewrite E in Hi. discriminate.
  - simpl in H. apply andb_true_iff in H as [Hc _]. eauto.
Qed.

(** *** Arrays and objects *)

Lemma JSON_induction (P : JSON -> Prop) :
  P JNull -> (forall b, P (JBool b)) -> (forall n, P (JNum n)) ->
  (forall s, P (JStr s)) ->
  (forall xs, Forall P xs -> P (JArr xs)) ->
  (forall kvs, Forall (fun kv => P (snd kv)) kvs -> P (JObj kvs)) ->
  forall v, P v.
Proof.
  intros Hnull Hbool Hnum Hstr Harr Hobj. fix IH 1. intros [| b | n | s | xs | kvs].
  - exact Hnull.
  - apply Hbool.
  - apply Hnum.
  - apply Hstr.
  - apply Harr. induction xs as [|x xs IHxs]; constructor; [apply IH | exact IHxs].
  - apply Hobj. induction kvs as [|[k x] kvs IHkvs]; constructor; [apply IH | exact IHkvs].
Qed.

Lemma sep_all_length l : (length l <= String.length (sep_all l))%nat.
Proof. induction l as [|x l IH]; simpl; [lia|]. rewrite str_length_app. lia. Qed.

Lemma sep_all_bound l :
  Forall (fun s => (String.length s <= String.length (sep_all l))%nat) l.
Proof.
  induction l as [|x l IH]; constructor; simpl; rewrite str_length_app; [lia|].
  eapply Forall_impl; [exact IH|]. simpl. intros; lia.
Qed.

Lemma delimited_sep_all l c rest :
  is_num_char c = false -> delimited (sep_all l +:+ String c rest).
Proof. intros Hc. destruct l; simpl; [exact Hc | reflexivity]. Qed.

Section CompositeRoundTrip.
Variable parse_elem : string -> option (JSON * string).

Lemma parse_elements_sep xs : forall fuel rest,
  Forall (parses_back parse_elem) xs -> (length xs < fuel)%nat ->
  parse_elements parse_elem fuel
    (sep_all (map JSON_stringify xs) +:+ String "]" rest) = Some (xs, rest).
Proof.
  induction xs as [|x xs IH]; intros fuel rest Hxs Hfuel;
    (destruct fuel as [|fuel]; [simpl in Hfuel; lia|]).
  - reflexivity.
  - apply Forall_cons in Hxs as [Hx Hxs]. simpl map. simpl sep_all.
    rewrite str_app_cons, str_app_assoc. simpl.
    rewrite Hx by (by apply delimited_sep_all). simpl.
    rewrite IH by (auto; simpl in Hfuel; lia). reflexivity.
Qed.

Lemma parse_member_text k v rest :
  parses_back parse_elem v -> delimited rest ->
  parse_member parse_elem (member_text (k, v) +:+ rest) = Some ((k, v), rest).
Proof.
  intros Hv Hrest. unfold member_text, quote, parse_member. simpl fst. simpl snd.
  rewrite !str_app_cons, !str_app_assoc. simpl.
  change ("" +:+ ?s) with s.
  rewrite str_app_cons, parse_string_escape. simpl.
  by rewrite Hv.
Qed.

Lemma parse_members_sep kvs : forall fuel rest,
  Forall (fun kv => parses_back parse_elem (snd kv)) kvs -> (length kvs < fuel)%nat ->
  parse_members parse_elem fuel
    (sep_all (map member_text kvs) +:+ String "}" rest) = Some (kvs, rest).
Proof.
  induction kvs as [|[k v] kvs IH]; intros fuel rest Hkvs Hfuel;
    (destruct fuel as [|fuel]; [simpl in Hfuel; lia|]).
  - reflexivity.
  - apply Forall_cons in Hkvs as [Hv Hkvs]. simpl map. simpl sep_all.
    rewrite str_app_cons, str_app_assoc. simpl.
    rewrite parse_member_text by (by auto using delimited_sep_all). simpl.
    rewrite IH by (auto; simpl in Hfuel; lia). reflexivity.
Qed.
End CompositeRoundTrip.

Lemma parse_value_stringify v : forall fuel,
  (String.length (JSON_stringify v) < fuel)%nat ->
  parses_back (parse_value fuel) v.
Proof.
  induction v as [| b | n | s | xs IH | kvs IH] using JSON_induction;
    intros fuel Hfuel rest Hrest;
    (destruct fuel as [|fuel]; [lia|]).
  - reflexivity.
  - destruct b; reflexivity.
  - destruct (string_of_Z_head n) as (c & s & E & Hc).
    simpl JSON_stringify. pose proof (parse_number_string_of_Z n rest Hrest) as Hn.
    rewrite E in *. rewrite str_app_cons in *. simpl. rewrite Hc, Hn. reflexivity.
  - simpl JSON_stringify. unfold quote. rewrite !str_app_cons, str_app_assoc. simpl.
    change ("" +:+ ?t) with t. rewrite str_app_cons, parse_string_escape. reflexivity.
  - simpl JSON_stringify in *. rewrite str_app_cons, str_app_assoc in *.
    simpl in Hfuel. rewrite str_length_app in Hfuel. simpl in Hfuel.
    change ("]" +:+ rest) with (String "]" rest).
    destruct xs as [|x xs].
    + simpl. change ("" +:+ ?t) with t.
      replace (parse_value fuel (String "]" rest)) with (@None (JSON * string))
        by (destruct fuel; reflexivity).
      reflexivity.
    + simpl map in *. simpl join_comma in *. rewrite str_length_app in Hfuel.
      pose proof (sep_all_bound (map JSON_stringify xs)) as Hb.
      pose proof (sep_all_length (map JSON_stringify xs)) as Hl.
      rewrite length_map in Hl.
      apply Forall_cons in IH as [IHx IHxs].
      rewrite str_app_assoc. simpl.
      rewrite (IHx fuel) by (lia || by apply delimited_sep_all).
      rewrite parse_elements_sep; [reflexivity | | lia].
      rewrite Forall_forall in IHxs. rewrite Forall_forall in Hb. apply Forall_forall. intros y Hy.
      apply IHxs; [done|].
      assert (String.length (JSON_stringify y)
              <= String.length (sep_all (map JSON_stringify xs)))%nat
        by (by apply Hb, list_elem_of_fmap_2).
      lia.
  - simpl JSON_stringify in *. fold member_text in *. rewrite str_app_cons, str_app_assoc in *.
    simpl in Hfuel. rewrite str_length_app in Hfuel. simpl in Hfuel.
    change ("}" +:+ rest) with (String "}" rest).
    destruct kvs as [|[k v] kvs].
    + simpl. change ("" +:+ ?t) with t.
      reflexivity.
    + simpl map in *. simpl join_comma in *. rewrite str_length_app in Hfuel.
      pose proof (sep_all_bound (map member_text kvs)) as Hb.
      pose proof (sep_all_length (map member_text kvs)) as Hl.
      rewrite length_map in Hl.
      apply Forall_cons in IH as [IHx IHxs]. simpl in IHx.
      rewrite str_app_assoc. simpl.
      assert (Hv : (String.length (JSON_stringify v) <= String.length (member_text (k, v)))%nat).
      { unfold member_text. rewrite str_length_app. simpl. lia. }
      rewrite parse_member_text; [| apply IHx; lia | apply delimited_sep_all; reflexivity].
      rewrite parse_members_sep; [reflexivity | | lia].
      rewrite Forall_forall in IHxs. rewrite Forall_forall in Hb. apply Forall_forall. intros [k' y] Hy.
      simpl. apply (IHxs _ Hy).
      assert (Hm : (String.length (member_text (k', y))
              <= String.length (sep_all (map member_text kvs)))%nat)
        by (by apply Hb, (list_elem_of_fmap_2 member_text)).
      unfold member_text in Hm at 1. rewrite str_length_app in Hm. simpl in Hm |- *. lia.
Qed.

(** The text of a value parses back to it, with nothing left over. *)
Lemma parse_value_text v :
  parse_value (S (String.length (JSON_stringify v))) (JSON_stringify v) = Some (v, "").
Proof.
  pose proof (parse_value_stringify v (S (String.length (JSON_stringify v)))
                (Nat.lt_succ_diag_r _) "" I) as H.
  assert (Hnil : forall s, s +:+ "" = s).
  { induction s as [|c s IHs]; [done|]. by rewrite str_app_cons, IHs. }
  by rewrite Hnil in H.
Qed.

Lemma JSON_stringify_inj v w : JSON_stringify v = JSON_stringify w -> v = w.
Proof.
  intros H. pose proof (parse_value_text v) as Hv.
  rewrite H, parse_value_text in Hv. congruence.
Qed.

(** ** Cache keys *)

(** Two queries get the same key exactly when [req.query] enumerates the
    same properties with the same values in the same order. *)
Lemma cacheKey_inj (ns : string) (A B : Obj) :
  cacheKey ns A = cacheKey ns B <-> A = B.
Proof.
  split; [|by intros ->]. unfold cacheKey. intros Hkeys.
  apply String.app_inj in Hkeys.
  assert (Hjson : JSON_stringify (JObj A) = JSON_stringify (JObj B))
    by (injection Hkeys as Htext; simpl; by rewrite Htext).
  apply JSON_stringify_inj in Hjson. by injection Hjson.
Qed.

(** *** The order an object enumerates its properties in *)

Lemma array_index_inj k k' n :
  array_index k = Some n -> array_index k' = Some n -> k = k'.
Proof.
  unfold array_index. intros Hk Hk'.
  destruct (NilZero.uint_of_string k) as [u|]; [|done].
  destruct (NilZero.uint_of_string k') as [u'|]; [|done].
  cbv zeta in Hk, Hk'.
  destruct (_ && _) eqn:E in Hk; [|done].
  destruct (_ && _) eqn:E' in Hk'; [|done].
  injection Hk as Hn. injection Hk' as Hn'.
  apply andb_true_iff in E as [E _]. apply andb_true_iff in E' as [E' _].
  apply String.eqb_eq in E, E'. rewrite Hn in E. rewrite Hn' in E'. congruence.
Qed.

Lemma obj_get_None (o : Obj) k : obj_get o k = None <-> ~ In k (map fst o).
Proof.
  induction o as [|[k' v'] o IH]; simpl; [tauto|].
  destruct (String.eqb k' k) eqn:E.
  - apply String.eqb_eq in E. split; [done | tauto].
  - apply String.eqb_neq in E. rewrite IH. tauto.
Qed.

Lemma obj_insert_last (o : Obj) k v :
  array_index k = None -> obj_insert o k v = o ++ [(k, v)].
Proof.
  intros Hk. induction o as [|[k' v'] o IH]; simpl; [done|].
  unfold comes_first. rewrite Hk. by rewrite IH.
Qed.

Lemma obj_insert_among_indices (S O : Obj) k v n :
  array_index k = Some n ->
  Forall (fun kv => array_index kv.1 = None) O ->
  obj_insert (S ++ O) k v = obj_insert S k v ++ O.
Proof.
  intros Hk HO. induction S as [|[k' v'] S IH]; simpl.
  - destruct HO as [|[k' v'] O Hk' _]; simpl; [done|].
    simpl in Hk'. unfold comes_first. by rewrite Hk, Hk'.
  - destruct (comes_first k k'); [done|]. by rewrite IH.
Qed.

Lemma obj_insert_Permutation (o : Obj) k v : obj_insert o k v ≡ₚ (k, v) :: o.
Proof.
  induction o as [|[k' v'] o IH]; simpl; [done|].
  destruct (comes_first k k'); [done|]. rewrite IH. apply perm_swap.
Qed.

Lemma obj_insert_sorted (S : Obj) k v n :
  array_index k = Some n ->
  Forall (fun kv => array_index kv.1 <> None) S ->
  Forall (fun kv => index_of kv <> n) S ->
  StronglySorted (fun x y => (index_of x < index_of y)%N) S ->
  StronglySorted (fun x y => (index_of x < index_of y)%N) (obj_insert S k v).
Proof.
  intros Hk Hidx Hn Hsorted.
  assert (Hkv : index_of (k, v) = n) by (unfold index_of; simpl; by rewrite Hk).
  induction Hsorted as [|[k' v'] S Hsorted IH Hlt]; simpl.
  - repeat constructor.
  - apply Forall_cons in Hidx as [Hk' Hidx]. apply Forall_cons in Hn as [Hn' Hn].
    simpl in Hk'. destruct (array_index k') as [n'|] eqn:E; [|done].
    assert (Hkv' : index_of (k', v') = n') by (unfold index_of; simpl; by rewrite E).
    unfold comes_first. rewrite Hk, E.
    destruct (n <? n')%N eqn:Hlt'.
    + apply N.ltb_lt in Hlt'. constructor; [by constructor|].
      constructor; [lia|]. eapply Forall_impl; [exact Hlt|]. intros x Hx. simpl in Hx. lia.
    + apply N.ltb_ge in Hlt'. constructor; [by apply IH|].
      rewrite obj_insert_Permutation. constructor; [lia | done].
Qed.

Lemma query_object_snoc (A : list (string * JSON)) k v :
  query_object (A ++ [(k, v)]) = obj_set (query_object A) k v.
Proof. unfold query_object. by rewrite fold_left_app. Qed.

(** The object of a list of parameters, no name twice: the parameters
    whose names are array indices, by their numbers, and then the others
    as the list has them. *)
Lemma query_object_shape (A : list (string * JSON)) :
  NoDup (map fst A) ->
  exists S,
    StronglySorted (fun x y => (index_of x < index_of y)%N) S
    /\ S ≡ₚ filter (fun kv => array_index kv.1 <> None) A
    /\ query_object A = S ++ filter (fun kv => array_index kv.1 = None) A.
Proof.
  induction A as [|[k v] A IH] using rev_ind; intros Hnodup.
  { exists []. split_and!; [constructor | done | done]. }
  rewrite map_app in Hnodup. apply NoDup_app in Hnodup as (Hnodup & Hfresh & _).
  destruct (IH Hnodup) as (S & Hsorted & Hperm & Hshape).
  assert (Hk : ~ In k (map fst A)).
  { intros Hin%list_elem_of_In. apply (Hfresh _ Hin). simpl. left. }
  assert (Hkeys : map fst (query_object A) ≡ₚ map fst A).
  { rewrite Hshape, Hperm. rewrite (Permutation_app_comm _ _).
    by rewrite (filter_app_complement (fun kv => array_index kv.1 = None) A). }
  assert (Hnew : obj_get (query_object A) k = None).
  { apply obj_get_None. intros Hin%list_elem_of_In. rewrite Hkeys in Hin.
    by apply list_elem_of_In in Hin. }
  rewrite query_object_snoc. unfold obj_set. rewrite Hnew, Hshape. rewrite !filter_app, !filter_cons, !filter_nil.
  simpl. destruct (array_index k) as [n|] eqn:E.
  - exists (obj_insert S k v).
    rewrite decide_True by done. rewrite decide_False by done.
    rewrite (obj_insert_among_indices S _ k v n E).
    2:{ apply Forall_forall. by intros x [? _]%list_elem_of_filter. }
    rewrite app_nil_r. split_and!; [|by rewrite obj_insert_Permutation, Hperm, Permutation_cons_append|done].
    apply (obj_insert_sorted S k v n E); [| |done].
    + apply Forall_forall. intros x Hx. rewrite Hperm in Hx.
      by apply list_elem_of_filter in Hx as [? _].
    + apply Forall_forall. intros [k' v'] Hx Hsame. rewrite Hperm in Hx.
      apply list_elem_of_filter in Hx as [Hidx Hx]. simpl in Hidx.
      unfold index_of in Hsame. simpl in Hsame.
      destruct (array_index k') as [n'|] eqn:E'; [|done]. simpl in Hsame. subst n'.
      apply Hk. rewrite (array_index_inj _ _ _ E E').
      apply list_elem_of_In. by apply (list_elem_of_fmap_2 fst) in Hx.
  - exists S. rewrite decide_False by (intros ?; done). rewrite decide_True by done.
    rewrite app_nil_r, obj_insert_last by done.
    split_and!; [done | done | by rewrite app_assoc].
Qed.

(** C2, as the spec states it, fails: the queries [?position=Forward&team=t1]
    and [?team=t1&position=Forward] have the same parameters with the same
    values, and get different keys. *)
Lemma cacheKey_depends_on_order :
  ~ (forall (ns : string) (A B : list (string * JSON)),
       Permutation A B ->
       cacheKey ns (query_object A) = cacheKey ns (query_object B)).
Proof.
  intros Hclaim.
  specialize (Hclaim "players"
                [("position", JStr "Forward"); ("team", JStr "t1")]
                [("team", JStr "t1"); ("position", JStr "Forward")]).
  pose proof (Hclaim (perm_swap _ _ _)) as Hkeys.
  vm_compute in Hkeys. discriminate Hkeys.
Qed.

(** C2, amended: two queries with the same parameters and values, the
    names plain and none twice, get the same key exactly when their
    parameters whose names are not array indices come in the same order.
    ([req.query] enumerates the array indices first, by their numbers,
    wherever the URL has them, and [JSON.stringify] follows that order.) *)
Theorem cacheKey_of_permuted_queries (ns : string) (A B : list (string * JSON)) :
  NoDup (map fst A) -> Permutation A B ->
  cacheKey ns (query_object A) = cacheKey ns (query_object B)
  <-> filter (fun kv => array_index kv.1 = None) A
      = filter (fun kv => array_index kv.1 = None) B.
Proof.
  intros HA Hperm.
  assert (HB : NoDup (map fst B)) by (by rewrite <- Hperm).
  destruct (query_object_shape A HA) as (SA & HsortedA & HpermA & ->).
  destruct (query_object_shape B HB) as (SB & HsortedB & HpermB & ->).
  assert (HS : SA = SB).
  { apply (StronglySorted_unique_strong (fun x y => (index_of x < index_of y)%N));
      [|done|done|by rewrite HpermA, HpermB, Hperm].
    intros x1 x2 _ _ H1 H2. simpl in H1, H2. lia. }
  subst SB. rewrite cacheKey_inj. split.
  - by intros ?%app_inv_head.
  - by intros ->.
Qed.

(** C2 at work: [?b=x&1=y] and [?1=y&b=x] get one key. *)
Lemma cacheKey_of_permuted_queries_witness :
  cacheKey "players" (query_object [("b", JStr "x"); ("1", JStr "y")])
  = cacheKey "players" (query_object [("1", JStr "y"); ("b", JStr "x")]).
Proof.
  apply (cacheKey_of_permuted_queries "players"
           [("b", JStr "x"); ("1", JStr "y")] [("1", JStr "y"); ("b", JStr "x")]).
  - apply (bool_decide_unpack _). vm_compute. exact I.
  - apply perm_swap.
  - reflexivity.
Defined.

(** ** The rules handler code is run by *)

Section Rules.
Context `{Mongoose}.
Context {A : Type} (env : Env) (w : World) (Q : Outcome A -> World -> Prop).

Lemma wp_ret (a : A) : Q (Normal a) w -> wp (mret a) env w Q.
Proof. done. Qed.
Lemma wp_throw e : Q (Thrown e) w -> wp (throw e) env w Q.
Proof. done. Qed.
Lemma wp_return : Q Returned w -> wp return_ env w Q.
Proof. done. Qed.

Lemma wp_bind {B} (m : Async B) (f : B -> Async A) :
  wp m env w (fun o w1 =>
    match o with
    | Normal b => wp (f b) env w1 Q
    | Returned => Q Returned w1
    | Thrown e => Q (Thrown e) w1
    end) ->
  wp (m ≫= f) env w Q.
Proof. unfold wp, mbind, Async_bind. by destruct (m env w) as [[b| |e] w1]. Qed.

Lemma wp_try_catch (m : Async A) (h : JSError -> Async A) :
  wp m env w (fun o w1 =>
    match o with
    | Thrown e => wp (h e) env w1 Q
    | _ => Q o w1
    end) ->
  wp (try_catch m h) env w Q.
Proof. unfold wp, try_catch. by destruct (m env w) as [[b| |e] w1]. Qed.
End Rules.

Section Rules1.
Context `{Mongoose}.
Context (env : Env) (w : World).

Lemma wp_when (Q : Outcome unit -> World -> Prop) (b : bool) (m : Async unit) :
  (b = true -> wp m env w Q) -> (b = false -> Q (Normal tt) w) ->
  wp (when_ b m) env w Q.
Proof. intros Ht Hf. destruct b; [by apply Ht | by apply Hf]. Qed.

Lemma wp_emit (Q : Outcome unit -> World -> Prop) e :
  Q (Normal tt) (record e w) -> wp (emit e) env w Q.
Proof. done. Qed.

Lemma wp_await (Q : Outcome unit -> World -> Prop) op :
  (forall e, rejects env op = Some e -> Q (Thrown e) (record (Await op) w)) ->
  (rejects env op = None -> Q (Normal tt) (record (Await op) w)) ->
  wp (await op) env w Q.
Proof. intros H1 H2. unfold wp, await. destruct (rejects env op) eqn:E; simpl; eauto. Qed.

Lemma wp_JSON_parse (Q : Outcome JSON -> World -> Prop) s :
  (forall v, JSON_parse s = Some v -> Q (Normal v) w) ->
  (JSON_parse s = None -> Q (Thrown SyntaxError) w) ->
  wp (JSON_parse_ s) env w Q.
Proof. intros H1 H2. unfold wp, JSON_parse_. destruct (JSON_parse s) eqn:E; simpl; eauto. Qed.

Lemma wp_redis_get (Q : Outcome (option string) -> World -> Prop) k :
  (forall e, rejects env (RedisGet k) = Some e -> Q (Thrown e) (record (Await (RedisGet k)) w)) ->
  (rejects env (RedisGet k) = None ->
   Q (Normal (redis_lookup (now env) (redis w) k)) (record (Await (RedisGet k)) w)) ->
  wp (redis_get k) env w Q.
Proof.
  intros; unfold wp, redis_get, await, mbind, Async_bind; simpl.
  destruct (rejects env (RedisGet k)) eqn:E; simpl; eauto.
Qed.

Lemma wp_redis_setex (Q : Outcome unit -> World -> Prop) k s v :
  (forall e, rejects env (RedisSetex k s v) = Some e ->
     Q (Thrown e) (record (Await (RedisSetex k s v)) w)) ->
  (rejects env (RedisSetex k s v) = None ->
   Q (Normal tt)
     {| db := db w; redis := <[k := (v, (now env + s)%nat)]> (redis w);
        trace := trace w ++ [Await (RedisSetex k s v)] |}) ->
  wp (redis_setex k s v) env w Q.
Proof.
  intros; unfold wp, redis_setex, await, mbind, Async_bind; simpl.
  destruct (rejects env (RedisSetex k s v)) eqn:E; simpl; eauto.
Qed.

Lemma wp_redis_del (Q : Outcome unit -> World -> Prop) k :
  (forall e, rejects env (RedisDel k) = Some e -> Q (Thrown e) (record (Await (RedisDel k)) w)) ->
  (rejects env (RedisDel k) = None ->
   Q (Normal tt)
     {| db := db w; redis := delete k (redis w);
        trace := trace w ++ [Await (RedisDel k)] |}) ->
  wp (redis_del k) env w Q.
Proof.
  intros; unfold wp, redis_del, await, mbind, Async_bind; simpl.
  destruct (rejects env (RedisDel k)) eqn:E; simpl; eauto.
Qed.

Lemma wp_Model_find (Q : Outcome (list JSON) -> World -> Prop) m f p s :
  (forall e, rejects env (MongoFind m f p s) = Some e ->
     Q (Thrown e) (record (Await (MongoFind m f p s)) w)) ->
  (rejects env (MongoFind m f p s) = None ->
   Q (Normal (query_result m f p s (db w))) (record (Await (MongoFind m f p s)) w)) ->
  wp (Model_find m f p s) env w Q.
Proof.
  intros; unfold wp, Model_find, await, mbind, Async_bind; simpl.
  destruct (rejects env (MongoFind m f p s)) eqn:E; simpl; eauto.
Qed.

Lemma wp_Model_findById (Q : Outcome (option Document) -> World -> Prop) m id :
  (forall e, rejects env (MongoFindById m id []) = Some e ->
     Q (Thrown e) (record (Await (MongoFindById m id [])) w)) ->
  (rejects env (MongoFindById m id []) = None ->
   Q (Normal ((fun fields => {| doc_id := id; doc_fields := fields |}) <$> db w !! (m, id)))
     (record (Await (MongoFindById m id [])) w)) ->
  wp (Model_findById m id) env w Q.
Proof.
  intros; unfold wp, Model_findById, await, mbind, Async_bind; simpl.
  destruct (rejects env (MongoFindById m id [])) eqn:E; simpl; eauto.
Qed.

Lemma wp_Model_findById_populate (Q : Outcome (option JSON) -> World -> Prop) m id p :
  (forall e, rejects env (MongoFindById m id p) = Some e ->
     Q (Thrown e) (record (Await (MongoFindById m id p)) w)) ->
  (rejects env (MongoFindById m id p) = None ->
   Q (Normal ((fun fields => populated m p (db w) {| doc_id := id; doc_fields := fields |})
                <$> db w !! (m, id)))
     (record (Await (MongoFindById m id p)) w)) ->
  wp (Model_findById_populate m id p) env w Q.
Proof.
  intros; unfold wp, Model_findById_populate, await, mbind, Async_bind; simpl.
  destruct (rejects env (MongoFindById m id p)) eqn:E; simpl; eauto.
Qed.

Lemma wp_Model_new (Q : Outcome Document -> World -> Prop) m f :
  Q (Normal (new_document m f (db w))) w -> wp (Model_new m f) env w Q.
Proof. done. Qed.

Lemma wp_doc_save (Q : Outcome Document -> World -> Prop) m d :
  let fields := pre_save m (now env) (doc_fields d) in
  (forall e, rejects env (MongoSave m (doc_id d) fields) = Some e ->
     Q (Thrown e) (record (Await (MongoSave m (doc_id d) fields)) w)) ->
  (rejects env (MongoSave m (doc_id d) fields) = None ->
   Q (Normal {| doc_id := doc_id d; doc_fields := fields |})
     {| db := <[(m, doc_id d) := fields]> (db w); redis := redis w;
        trace := trace w ++ [Await (MongoSave m (doc_id d) fields)] |}) ->
  wp (doc_save m d) env w Q.
Proof.
  intros; unfold wp, doc_save, await, mbind, Async_bind; simpl.
  destruct (rejects env (MongoSave m (doc_id d) _)) eqn:E; simpl; eauto.
Qed.

Lemma wp_Model_findByIdAndDelete (Q : Outcome (option Document) -> World -> Prop) m id :
  (forall e, rejects env (MongoFindByIdAndDelete m id) = Some e ->
     Q (Thrown e) (record (Await (MongoFindByIdAndDelete m id)) w)) ->
  (rejects env (MongoFindByIdAndDelete m id) = None ->
   forall fields, db w !! (m, id) = Some fields ->
   Q (Normal (Some {| doc_id := id; doc_fields := fields |}))
     {| db := delete (m, id) (db w); redis := redis w;
        trace := trace w ++ [Await (MongoFindByIdAndDelete m id)] |}) ->
  (rejects env (MongoFindByIdAndDelete m id) = None ->
   db w !! (m, id) = None ->
   Q (Normal None) (record (Await (MongoFindByIdAndDelete m id)) w)) ->
  wp (Model_findByIdAndDelete m id) env w Q.
Proof.
  intros; unfold wp, Model_findByIdAndDelete, await, mbind, Async_bind; simpl.
  destruct (rejects env (MongoFindByIdAndDelete m id)) eqn:E; simpl; eauto.
  simpl. destruct (db w !! (m, id)) eqn:E'; simpl; eauto.
Qed.

Lemma wp_doc_populate (Q : Outcome JSON -> World -> Prop) m d p :
  (forall e, rejects env (MongoPopulate m (doc_id d) p) = Some e ->
     Q (Thrown e) (record (Await (MongoPopulate m (doc_id d) p)) w)) ->
  (rejects env (MongoPopulate m (doc_id d) p) = None ->
   Q (Normal (populated m p (db w) d)) (record (Await (MongoPopulate m (doc_id d) p)) w)) ->
  wp (doc_populate m d p) env w Q.
Proof.
  intros; unfold wp, doc_populate, await, mbind, Async_bind; simpl.
  destruct (rejects env (MongoPopulate m (doc_id d) p)) eqn:E; simpl; eauto.
Qed.
End Rules1.


Lemma wp_run `{Mongoose} (r : Route) req env w (P : World -> Prop) :
  wp (handler r req) env w (fun _ w' => P w') -> P (serve r req env w).
Proof. done. Qed.

(** *** The events of a run *)

Lemma snoc_all_app t evs : snoc_all t evs = t ++ evs.
Proof.
  revert t. induction evs as [|e evs IH]; intros t; simpl.
  - by rewrite app_nil_r.
  - by rewrite IH, <- app_assoc.
Qed.

Lemma effects_of_trace w w' evs :
  trace w' = snoc_all (trace w) evs -> effects w w' = evs.
Proof. intros E. unfold effects. by rewrite E, snoc_all_app, drop_app_length. Qed.

Lemma effects_extends P w w' : extends P w w' -> Forall P (effects w w').
Proof. intros (evs & E & Hevs). unfold effects. by rewrite E, drop_app_length. Qed.

Lemma wp_let `{Mongoose} {A B} (v : B) (b : B -> Async A) env w Q :
  (forall x, x = v -> wp (b x) env w Q) -> wp (let x := v in b x) env w Q.
Proof. intros Hb. by apply Hb. Qed.

(** A branch whose conditions contradict what is known is not run. *)
Ltac prune :=
  try match goal with
    | H1 : ?x = None, H2 : ?x = Some _ |- _ => exfalso; rewrite H1 in H2; discriminate H2
    | H1 : ?x = true, H2 : ?x = false |- _ => exfalso; rewrite H1 in H2; discriminate H2
    | H1 : ?x = Some _, H2 : ?x = None |- _ => exfalso; rewrite H1 in H2; discriminate H2
    end.

(** One step of the run of the handler code in the goal. *)
Ltac wp_step :=
  lazymatch goal with
  | |- wp (try_catch _ _) _ _ _ => apply wp_try_catch
  | |- wp (mbind _ _) _ _ _ => apply wp_bind
  | |- wp (when_ true _) _ _ _ => unfold when_ at 1
  | |- wp (when_ false _) _ _ _ => unfold when_ at 1
  | |- wp (when_ _ _) _ _ _ => apply wp_when; intros ?
  | |- wp (mret _) _ _ _ => apply wp_ret
  | |- wp (throw _) _ _ _ => apply wp_throw
  | |- wp return_ _ _ _ => apply wp_return
  | |- wp (JSON_parse_ _) _ _ _ => apply wp_JSON_parse; [intros ? ? | intros ?]
  | |- wp (redis_get _) _ _ _ => apply wp_redis_get; [intros ? ? | intros ?]; prune
  | |- wp (redis_setex _ _ _) _ _ _ => apply wp_redis_setex; [intros ? ? | intros ?]; prune
  | |- wp (redis_del _) _ _ _ => apply wp_redis_del; [intros ? ? | intros ?]; prune
  | |- wp (Model_find _ _ _ _) _ _ _ => apply wp_Model_find; [intros ? ? | intros ?]; prune
  | |- wp (Model_findById _ _) _ _ _ => apply wp_Model_findById; [intros ? ? | intros ?]; prune
  | |- wp (Model_findById_populate _ _ _) _ _ _ =>
      apply wp_Model_findById_populate; [intros ? ? | intros ?]; prune
  | |- wp (Model_new _ _) _ _ _ => apply wp_Model_new
  | |- wp (doc_save _ _) _ _ _ => apply wp_doc_save; [intros ? ? | intros ?]; prune
  | |- wp (Model_findByIdAndDelete _ _) _ _ _ =>
      apply wp_Model_findByIdAndDelete; [intros ? ? | intros ? ? ? | intros ? ?]; prune
  | |- wp (doc_populate _ _ _) _ _ _ => apply wp_doc_populate; [intros ? ? | intros ?]; prune
  | |- wp (logger_info _) _ _ _ => apply wp_emit
  | |- wp (logger_error _ _) _ _ _ => apply wp_emit
  | |- wp (res_status_json _ _) _ _ _ => apply wp_emit
  | |- wp (res_json _) _ _ _ => apply wp_emit
  | |- wp (emit _) _ _ _ => apply wp_emit
  | |- wp (match ?x with _ => _ end) _ _ _ => destruct x eqn:?; prune
  | |- wp (let x := ?v in @?b x) _ _ _ =>
      let y := fresh x in
      let Hy := fresh "Def" y in
      apply (wp_let v b); intros y Hy; cbv beta
  | |- match ?o with _ => _ end => cbv beta iota
  | |- (fun _ => _) _ => cbv beta
  | |- (fun _ _ => _) _ _ => cbv beta
  end.

Ltac collect_events t base acc :=
  lazymatch t with
  | base => acc
  | ?t' ++ [?e] => collect_events t' base constr:(e :: acc)
  end.

(** At the end of a run: the events it added, as a list. *)
Ltac leaf :=
  cbn [record db redis trace];
  repeat match goal with
    | |- context [effects ?w ?w'] =>
        let t := eval cbn [record db redis trace] in (trace w') in
        let evs := collect_events t (trace w) constr:(@nil Event) in
        rewrite (effects_of_trace w w' evs eq_refl)
    end.

(** The code of the handler in the goal, with its local definitions. *)
Ltac unfold_route :=
  cbv delta [handler
    players_list players_get players_by_team players_post players_patch
    players_delete teams_list teams_get teams_post teams_patch teams_delete
    standings_list standings_get standings_post standings_patch standings_delete
    fixtures_list fixtures_get fixtures_post fixtures_patch fixtures_delete
    playerStats_list playerStats_get playerStats_post playerStats_patch
    playerStats_delete news_list news_get news_post news_patch news_delete
    transfers_list transfers_get transfers_post transfers_patch transfers_delete
    awards_list awards_get awards_post awards_patch awards_delete];
  cbv beta iota.

Ltac run_route := apply wp_run; unfold_route; repeat wp_step.

(** ** Updates outside the allow-list *)

Lemma includes_key_In l k : includes_key l k = true <-> In k l.
Proof.
  unfold includes_key. rewrite existsb_exists. split.
  - intros (x & Hx & E). apply String.eqb_eq in E. by subst.
  - intros Hk. exists k. split; [done | apply String.eqb_refl].
Qed.

Lemma isValidOperation_false updates allowed field :
  In field updates -> ~ In field allowed -> isValidOperation updates allowed = false.
Proof.
  intros Hin Hout. apply not_true_is_false. unfold isValidOperation.
  rewrite forallb_forall. intros Hall. apply Hout, includes_key_In, Hall, Hin.
Qed.

Section Patch.
Context `{Mongoose}.

(** C10: a PATCH whose body has a field outside the allow-list of its
    route is answered 400 at once: the response is all the request does,
    no document is read or written and no cache command is issued. *)
Theorem patch_rejects_unknown_field r allowed field req env w :
  allowedUpdates_of r = Some allowed ->
  In field (Object_keys (body req)) -> ~ In field allowed ->
  exists msg,
    handler r req env w = (Returned, record (Responded 400 (message_body msg)) w).
Proof.
  intros Hr Hin Hout.
  pose proof (isValidOperation_false _ _ _ Hin Hout) as Hv.
  destruct r; try discriminate Hr; injection Hr as <-;
    eexists; simpl handler; unfold_route;
    cbv zeta; unfold try_catch, mbind, Async_bind, when_; rewrite Hv; reflexivity.
Qed.
End Patch.

(** ** Writes and the keys they delete *)

Lemma write_order_del env pre : forall evs committed invalidated k post,
  write_order env committed invalidated evs = true ->
  evs = pre ++ Await (RedisDel k) :: post ->
  (committed = true \/
   exists op, In (Await op) pre /\ is_mutation op = true /\ rejects env op = None)
  /\ Forall (fun e => is_response e = false) pre.
Proof.
  induction pre as [|e pre IH]; intros evs c i k post Hord ->; simpl in Hord.
  - apply andb_true_iff in Hord as [-> _]. split; [by left | constructor].
  - destruct e as [op | lvl msg err | status body].
    + assert (Hnext : exists c' i', write_order env c' i'
                (pre ++ Await (RedisDel k) :: post) = true /\
                (c' = true -> c = true \/ (is_mutation op = true /\ rejects env op = None))).
      { destruct (is_mutation op) eqn:Hmut.
        - eexists _, _. split; [exact Hord|]. intros [?|Hacc]%orb_true_iff; [by left|].
          right. split; [done|]. unfold accepted in Hacc. by destruct (rejects env op).
        - destruct op; try discriminate Hmut; try (eexists _, _; split; [exact Hord | by left]).
          apply andb_true_iff in Hord as [-> Hord]. eexists _, _. split; [exact Hord | by left]. }
      destruct Hnext as (c' & i' & Hord' & Hc').
      destruct (IH _ _ _ _ _ Hord' eq_refl) as [Hcommit Hpre]. split; [|by constructor].
      destruct Hcommit as [Hcommit|(op' & Hin & Hmut & Hacc)].
      * destruct (Hc' Hcommit) as [?|[Hmut Hacc]]; [by left|].
        right. exists op. split; [by left | done].
      * right. exists op'. split; [by right | done].
    + destruct (IH _ _ _ _ _ Hord eq_refl) as [Hcommit Hpre]. split; [|by constructor].
      destruct Hcommit as [?|(op' & Hin & Hmut & Hacc)]; [by left|].
      right. exists op'. split; [by right | done].
    + exfalso. apply andb_true_iff in Hord as [_ Hquiet].
      rewrite forallb_forall in Hquiet.
      assert (Hdel : In (Await (RedisDel k)) (pre ++ Await (RedisDel k) :: post))
        by (apply in_or_app; right; by left).
      apply Hquiet in Hdel. discriminate Hdel.
Qed.

Lemma write_order_response env pre : forall evs committed invalidated status body post,
  write_order env committed invalidated evs = true ->
  evs = pre ++ Responded status body :: post ->
  success status = true ->
  invalidated = true \/ exists k, In (Await (RedisDel k)) pre.
Proof.
  induction pre as [|e pre IH]; intros evs c i st bd post Hord -> Hs; simpl in Hord.
  - rewrite Hs in Hord. apply andb_true_iff in Hord as [-> _]. by left.
  - destruct e as [op | lvl msg err | status' body'].
    + assert (Hnext : exists c' i', write_order env c' i'
                (pre ++ Responded st bd :: post) = true /\
                (i' = true -> i = true \/ exists k, op = RedisDel k)).
      { destruct (is_mutation op) eqn:Hmut.
        - eexists _, _. split; [exact Hord | by left].
        - destruct op; try discriminate Hmut; try (eexists _, _; split; [exact Hord | by left]).
          apply andb_true_iff in Hord as [_ Hord]. eexists _, _. split; [exact Hord|].
          intros _. right. by eexists. }
      destruct Hnext as (c' & i' & Hord' & Hi').
      destruct (IH _ _ _ _ _ _ Hord' eq_refl Hs) as [Hinv|(k & Hk)].
      * destruct (Hi' Hinv) as [?|(k & ->)]; [by left|]. right. exists k. by left.
      * right. exists k. by right.
    + destruct (IH _ _ _ _ _ _ Hord eq_refl Hs) as [?|(k & Hk)]; [by left|].
      right. exists k. by right.
    + exfalso. apply andb_true_iff in Hord as [_ Hquiet].
      rewrite forallb_forall in Hquiet.
      assert (Hresp : In (Responded st bd) (pre ++ Responded st bd :: post))
        by (apply in_or_app; right; by left).
      apply Hquiet in Hresp. discriminate Hresp.
Qed.

Lemma write_order_sound env evs :
  write_order env false false evs = true ->
  invalidation_follows_commit env evs /\ response_follows_invalidation evs.
Proof.
  intros Hord. split.
  - intros pre k post Hsplit.
    destruct (write_order_del env pre _ _ _ _ _ Hord Hsplit) as [[?|?] ?]; done.
  - intros pre st bd post Hsplit Hs.
    destruct (write_order_response env pre _ _ _ _ _ _ Hord Hsplit Hs); done.
Qed.

Lemma cacheKey_not_pattern ns q : cacheKey ns q <> ns +:+ ":*".
Proof.
  unfold cacheKey. intros E. apply String.app_inj in E. discriminate E.
Qed.

Lemma lookup_delete2_ne (s : Store) k1 k2 k :
  k <> k1 -> k <> k2 -> delete k2 (delete k1 s) !! k = s !! k.
Proof. intros. by rewrite !lookup_delete_ne. Qed.

Lemma lookup_delete2_first (s : Store) k1 k2 : delete k2 (delete k1 s) !! k1 = None.
Proof.
  destruct (decide (k1 = k2)) as [->|]; [apply lookup_delete_eq|].
  rewrite lookup_delete_ne by done. apply lookup_delete_eq.
Qed.

Ltac use_rejects :=
  repeat match goal with
    | E : rejects ?env ?op = _ |- context [rejects ?env ?op] => rewrite E
    end.

Section Writes.
Context `{Mongoose}.

(** C7: on every route that invalidates, each [DEL] is issued after the
    mutation was committed (its [save] or [findByIdAndDelete] was awaited
    and did not reject) and before any response, and a success response
    is sent only once a [DEL] has been issued. *)
Theorem invalidation_between_commit_and_response r req env w :
  invalidates r = true ->
  let evs := effects w (serve r req env w) in
  invalidation_follows_commit env evs /\ response_follows_invalidation evs.
Proof.
  intros Hr evs. subst evs. apply write_order_sound.
  destruct r; try discriminate Hr; clear Hr.
  all: run_route.
  all: leaf; cbn [write_order is_mutation orb andb]; unfold accepted; use_rejects;
    reflexivity.
Qed.

(** C5, amended: a write deletes the keys of [invalidated_keys], in that
    order and no others; when it answers with success all of them were
    deleted and are absent from the store.  The routers of teams,
    standings and fixtures issue no Redis command. *)
Theorem writes_delete_their_keys r req env w :
  is_write r = true ->
  let w' := serve r req env w in
  let evs := effects w w' in
  (exists rest, invalidated_keys r req = dels evs ++ rest)
  /\ (forall status body, response evs = Some (status, body) -> success status = true ->
        dels evs = invalidated_keys r req
        /\ Forall (fun k => redis w' !! k = None) (invalidated_keys r req))
  /\ (uncached_router r = true -> Forall no_redis evs /\ redis w' = redis w).
Proof.
  intros Hr w' evs. subst evs w'. destruct r; try discriminate Hr; clear Hr.
  all: run_route.
  all: leaf; split_and!;
    [ eexists; reflexivity
    | intros st bd Hresp Hs;
      first [ injection Hresp as <- <-; discriminate Hs
            | split; [reflexivity|];
              repeat constructor;
              first [apply lookup_delete_eq | apply lookup_delete2_first] ]
    | intros Hu; first [discriminate Hu | split; [repeat constructor | reflexivity]] ].
Qed.

(** What a write leaves alone: every key of the store it does not name. *)
Lemma write_frame r req env w k :
  is_write r = true -> ~ In k (invalidated_keys r req) ->
  redis (serve r req env w) !! k = redis w !! k.
Proof.
  intros Hr Hk. destruct r; try discriminate Hr; clear Hr; simpl in Hk.
  all: run_route.
  all: cbn [record db redis trace];
    first [ reflexivity
          | apply lookup_delete_ne; intros <-; apply Hk; simpl; tauto
          | apply lookup_delete2_ne; intros ->; apply Hk; simpl; tauto ].
Qed.

(** C1 does not hold of the code: the entries of the
    cached lists are still in the store after a create, an update or a
    delete has run its invalidation, since [DEL transfers:*] removes the
    key of that name only. *)
Theorem cached_lists_survive_invalidation req env w q :
  (forall r, In r [TransfersPost; TransfersPatch; TransfersDelete] ->
     redis (serve r req env w) !! cacheKey "transfers" q
     = redis w !! cacheKey "transfers" q)
  /\ (forall r, In r [PlayerStatsPost; PlayerStatsPatch; PlayerStatsDelete] ->
        redis (serve r req env w) !! cacheKey "playerStats" q
        = redis w !! cacheKey "playerStats" q)
  /\ (forall r, In r [AwardsPost; AwardsPatch; AwardsDelete] ->
        redis (serve r req env w) !! cacheKey "awards" q
        = redis w !! cacheKey "awards" q)
  /\ redis (serve NewsPost req env w) !! cacheKey "news" q = redis w !! cacheKey "news" q.
Proof.
  split_and!; [intros r Hr; simpl in Hr .. |].
  all: try (destruct Hr as [<-|[<-|[<-|[]]]]).
  all: apply write_frame; [reflexivity|]; simpl.
  all: intros Hin; repeat destruct Hin as [Hin|Hin]; try done.
  all: try (by apply (cacheKey_not_pattern _ q)).
  all: unfold cacheKey, entityKey in Hin; discriminate Hin.
Qed.
End Writes.

(** ** Relations every step of a handler keeps *)

Section Steps.
Variable R : Env -> World -> World -> Prop.
Hypothesis R_refl : forall env w, R env w w.
Hypothesis R_trans : forall env w1 w2 w3, R env w1 w2 -> R env w2 w3 -> R env w1 w3.

Lemma keeps_ret {A} (a : A) : keeps R (mret a).
Proof. intros env w. apply R_refl. Qed.

Lemma keeps_throw {A} e : keeps R (@throw A e).
Proof. intros env w. apply R_refl. Qed.

Lemma keeps_return {A} : keeps R (@return_ A).
Proof. intros env w. apply R_refl. Qed.

Lemma keeps_bind {A B} (m : Async A) (f : A -> Async B) :
  keeps R m -> (forall a, keeps R (f a)) -> keeps R (m ≫= f).
Proof.
  intros Hm Hf env w. unfold mbind, Async_bind. specialize (Hm env w).
  destruct (m env w) as [[a| |e] w1]; simpl in *; auto.
  eapply R_trans; [exact Hm | apply Hf].
Qed.

Lemma keeps_try_catch {A} (m : Async A) (h : JSError -> Async A) :
  keeps R m -> (forall e, keeps R (h e)) -> keeps R (try_catch m h).
Proof.
  intros Hm Hh env w. unfold try_catch. specialize (Hm env w).
  destruct (m env w) as [[a| |e] w1]; simpl in *; auto.
  eapply R_trans; [exact Hm | apply Hh].
Qed.

Lemma keeps_when b m : keeps R m -> keeps R (when_ b m).
Proof. intros Hm. destruct b; [exact Hm | apply keeps_ret]. Qed.

Lemma keeps_JSON_parse s : keeps R (JSON_parse_ s).
Proof.
  unfold JSON_parse_. destruct (JSON_parse s); [apply keeps_ret | apply keeps_throw].
Qed.

Lemma keeps_Model_new `{Mongoose} m f : keeps R (Model_new m f).
Proof. intros env w. apply R_refl. Qed.
End Steps.

Ltac keeps_step :=
  lazymatch goal with
  | |- keeps _ (try_catch _ _) => apply keeps_try_catch
  | |- keeps _ (mbind _ _) => apply keeps_bind
  | |- keeps _ (when_ _ _) => apply keeps_when
  | |- keeps _ (mret _) => apply keeps_ret
  | |- keeps _ (throw _) => apply keeps_throw
  | |- keeps _ return_ => apply keeps_return
  | |- keeps _ (JSON_parse_ _) => apply keeps_JSON_parse
  | |- keeps _ (Model_new _ _) => apply keeps_Model_new
  | |- keeps _ (match ?x with _ => _ end) => destruct x
  | |- keeps _ (let _ := _ in _) => cbv zeta
  | |- forall _, _ => intro
  end.

Lemma extends_same P w w' : trace w' = trace w -> extends P w w'.
Proof. intros E. exists []. by rewrite app_nil_r. Qed.

Lemma extends_one P e w w' : trace w' = trace w ++ [e] -> P e -> extends P w w'.
Proof. intros E He. exists [e]. auto. Qed.

Lemma extends_trans P w1 w2 w3 : extends P w1 w2 -> extends P w2 w3 -> extends P w1 w3.
Proof.
  intros (e1 & H1 & F1) (e2 & H2 & F2). exists (e1 ++ e2).
  rewrite H2, H1, app_assoc. split; [done | by apply Forall_app].
Qed.

(** The run of one awaited operation, or of one effect. *)
Ltac run_prim :=
  intros env w;
  unfold redis_get, redis_setex, redis_del, Model_find, Model_findById,
    Model_findById_populate, doc_save, Model_findByIdAndDelete,
    doc_populate, logger_info, logger_error, res_status_json, res_json,
    await, emit, put_db, put_redis, get_db, get_redis, get_now,
    mbind, Async_bind, mret, Async_ret;
  simpl;
  repeat match goal with
    | |- context [match rejects ?e ?op with _ => _ end] => destruct (rejects e op); simpl
    | |- context [match ?x with _ => _ end] => destruct x; simpl
    end.

(** ** Time to live *)

Lemma written_now_refl env s : written_now env s s.
Proof. intros k v e. by left. Qed.

Lemma written_now_trans env s1 s2 s3 :
  written_now env s1 s2 -> written_now env s2 s3 -> written_now env s1 s3.
Proof.
  intros H12 H23 k v e Hk. destruct (H23 _ _ _ Hk) as [Hk2|?]; [|by right].
  by apply H12.
Qed.

Lemma hourly_refl env w : hourly env w w.
Proof. split; [by apply extends_same | apply written_now_refl]. Qed.

Lemma hourly_trans env w1 w2 w3 : hourly env w1 w2 -> hourly env w2 w3 -> hourly env w1 w3.
Proof.
  intros [E1 S1] [E2 S2]. split; [by eapply extends_trans | by eapply written_now_trans].
Qed.

Section Hourly.
Context `{Mongoose}.

Lemma hourly_emit e : ttl_3600 e -> keeps hourly (emit e).
Proof. intros He. run_prim. split; [by eapply extends_one | apply written_now_refl]. Qed.

Lemma hourly_redis_get k : keeps hourly (redis_get k).
Proof. run_prim; (split; [by eapply extends_one | apply written_now_refl]). Qed.

Lemma hourly_redis_setex k v : keeps hourly (redis_setex k 3600 v).
Proof.
  run_prim; (split; [by eapply extends_one | try apply written_now_refl]).
  unfold written_now; simpl. intros k' v' e'. rewrite lookup_insert.
  case_decide; [intros [= <- <-]; by right | by left].
Qed.

Lemma hourly_redis_del k : keeps hourly (redis_del k).
Proof.
  run_prim; (split; [by eapply extends_one | try apply written_now_refl]).
  unfold written_now; simpl. intros k' v' e'. rewrite lookup_delete.
  case_decide; [done | by left].
Qed.

Lemma hourly_Model_find m f p s : keeps hourly (Model_find m f p s).
Proof. run_prim; (split; [by eapply extends_one | apply written_now_refl]). Qed.

Lemma hourly_Model_findById m i : keeps hourly (Model_findById m i).
Proof. run_prim; (split; [by eapply extends_one | apply written_now_refl]). Qed.

Lemma hourly_Model_findById_populate m i p : keeps hourly (Model_findById_populate m i p).
Proof. run_prim; (split; [by eapply extends_one | apply written_now_refl]). Qed.

Lemma hourly_doc_save m d : keeps hourly (doc_save m d).
Proof. run_prim; (split; [by eapply extends_one | apply written_now_refl]). Qed.

Lemma hourly_Model_findByIdAndDelete m i : keeps hourly (Model_findByIdAndDelete m i).
Proof. run_prim; (split; [by eapply extends_one | apply written_now_refl]). Qed.

Lemma hourly_doc_populate m d p : keeps hourly (doc_populate m d p).
Proof. run_prim; (split; [by eapply extends_one | apply written_now_refl]). Qed.

Ltac hourly_step :=
  lazymatch goal with
  | |- keeps _ (redis_get _) => apply hourly_redis_get
  | |- keeps _ (redis_setex _ _ _) => apply hourly_redis_setex
  | |- keeps _ (redis_del _) => apply hourly_redis_del
  | |- keeps _ (Model_find _ _ _ _) => apply hourly_Model_find
  | |- keeps _ (Model_findById _ _) => apply hourly_Model_findById
  | |- keeps _ (Model_findById_populate _ _ _) => apply hourly_Model_findById_populate
  | |- keeps _ (doc_save _ _) => apply hourly_doc_save
  | |- keeps _ (Model_findByIdAndDelete _ _) => apply hourly_Model_findByIdAndDelete
  | |- keeps _ (doc_populate _ _ _) => apply hourly_doc_populate
  | |- keeps _ (logger_info _) => apply hourly_emit; exact I
  | |- keeps _ (logger_error _ _) => apply hourly_emit; exact I
  | |- keeps _ (res_status_json _ _) => apply hourly_emit; exact I
  | |- keeps _ (res_json _) => apply hourly_emit; exact I
  | |- forall env w, hourly env w w => exact hourly_refl
  | |- forall env w1 w2 w3, hourly env w1 w2 -> _ => exact hourly_trans
  | |- _ => keeps_step
  end.

Lemma every_route_hourly r req : keeps hourly (handler r req).
Proof. destruct r; unfold_route; repeat hourly_step. Qed.

Lemma expired_is_gone t (s : Store) k v e :
  s !! k = Some (v, e) -> (e <= t)%nat -> redis_lookup t s k = None.
Proof.
  intros Hk He. unfold redis_lookup. rewrite Hk.
  destruct (t <? e)%nat eqn:Hlt; [|done]. apply Nat.ltb_lt in Hlt. lia.
Qed.

(** C8: every [setex] a route issues has a time to live of 3600 seconds,
    and whatever a request leaves in the store that it did not find there
    expires 3600 seconds after the request: from then on [get] does not
    return it. *)
Theorem every_population_expires_within_the_hour r req env w :
  let w' := serve r req env w in
  (forall key seconds value,
     In (Await (RedisSetex key seconds value)) (effects w w') -> seconds = 3600%nat)
  /\ (forall k v e, redis w' !! k = Some (v, e) ->
        redis w !! k = Some (v, e)
        \/ (e = (now env + 3600)%nat
            /\ forall t, (now env + 3600 <= t)%nat -> redis_lookup t (redis w') k = None)).
Proof.
  intros w'. destruct (every_route_hourly r req env w) as [Hevs Hstore]. split.
  - intros key seconds value Hin. apply effects_extends in Hevs.
    rewrite Forall_forall in Hevs. apply list_elem_of_In in Hin. exact (Hevs _ Hin).
  - intros k v e Hk. destruct (Hstore _ _ _ Hk) as [Hold|He]; [by left|]. right.
    split; [done|]. intros t Ht. eapply expired_is_gone; [exact Hk | lia].
Qed.
End Hourly.

(** ** Cached reads *)

Lemma JSON_stringify_nonempty v : String.eqb (JSON_stringify v) "" = false.
Proof.
  destruct v as [| [] | n | s | xs | kvs]; try reflexivity.
  simpl. destruct (string_of_Z_head n) as (c & s & -> & _). reflexivity.
Qed.

Lemma cache_hit_stringify v : cache_hit (Some (JSON_stringify v)) = true.
Proof. simpl. by rewrite JSON_stringify_nonempty. Qed.

Lemma redis_lookup_fresh t t0 seconds (s : Store) k v :
  (t < t0 + seconds)%nat -> redis_lookup t (<[k := (v, (t0 + seconds)%nat)]> s) k = Some v.
Proof.
  intros Ht. unfold redis_lookup. rewrite lookup_insert_eq.
  by apply Nat.ltb_lt in Ht as ->.
Qed.

(** The names the handlers give their keys, replaced by the keys. *)
Ltac subst_keys :=
  repeat match goal with
    | D : ?x = cacheKey _ _ |- _ => subst x
    | D : ?x = entityKey _ _ |- _ => subst x
    end.

(** What is known of the lookup, used in the goal. *)
Ltac use_lookup :=
  repeat match goal with
    | E : rejects ?env ?op = _ |- context [rejects ?env ?op] => rewrite E
    | E : cache_hit ?c = _ |- context [cache_hit ?c] => rewrite E
    | E : JSON_parse ?s = _ |- context [JSON_parse ?s] => rewrite E
    end.

Lemma In_setexs evs k s v :
  In (Await (RedisSetex k s v)) evs -> In (k, s, v) (setexs evs).
Proof.
  induction evs as [|e evs IH]; [done|]. intros [->|Hin].
  - by left.
  - unfold setexs. cbn [omap list_omap]. fold (setexs evs).
    destruct e as [[]| |]; cbn; auto.
Qed.

Section Reads.
Context `{Mongoose}.

(** Every cached read goes one of the ways of [cached_read]. *)
Lemma cached_read_cases r req env w key :
  lookup_key r req = Some key -> cached_read r req env key w (serve r req env w).
Proof.
  intros Hkey. destruct r; try discriminate Hkey.
  all: injection Hkey as <-.
  all: run_route.
  all: subst_keys; cbn [record db redis trace] in *.
  all: unfold cached_read; cbv zeta; cbn [record db redis trace]; use_lookup;
    (split; [reflexivity|]).
  all: unfold read_falls_back; cbn [guarded_lookup];
    unfold read_hits, read_fails, read_loads; cbn [entity_model]; leaf.
  all: try (split_and!; reflexivity).
  all: try (split_and!; [eexists; reflexivity | reflexivity ..]).
  all: split; [reflexivity|].
  all: try (match goal with
      | E : rejects _ ?op = Some ?e |- _ =>
          left; exists op, e;
          split_and!; [cbn [In]; tauto | reflexivity | exact E
                      | eexists; reflexivity | reflexivity ..]
      end; fail).
  all: try (right; left; eexists _, _;
      split_and!; [reflexivity | by eapply fmap_None | reflexivity ..]; fail).
  all: right; right; eexists;
    split_and!;
      [ intros m' Hm' Hnone; first [discriminate Hm' | injection Hm' as <-];
        match goal with E : _ <$> _ = Some _ |- _ => rewrite Hnone in E; discriminate E end
      | reflexivity
      | use_lookup ].
  all: first [ split; reflexivity
            | split_and!;
              [ eexists; reflexivity
              | eexists; cbn [In]; repeat (first [left; reflexivity | right])
              | reflexivity ] ].
Qed.

End Reads.

Section Reads2.
Context `{Mongoose}.

(** A read that issued [SETEX] is one that went to the database. *)
Lemma cached_read_populating r req env w key k s v :
  lookup_key r req = Some key ->
  let w' := serve r req env w in
  let evs := effects w w' in
  In (Await (RedisSetex k s v)) evs ->
  db w' = db w /\ read_loads r req env key w w' evs.
Proof.
  intros Hkey w' evs Hin.
  assert (Hset : setexs evs <> []).
  { apply (In_setexs _ _ _ _) in Hin. intros E. by rewrite E in Hin. }
  destruct (cached_read_cases r req env w key Hkey) as [Hdb Hcases].
  fold w' evs in Hcases. split; [exact Hdb|].
  assert (Hfb : read_falls_back r req env key w w' evs -> read_loads r req env key w w' evs).
  { unfold read_falls_back. destruct (guarded_lookup r); [done|].
    intros (_ & _ & E & _). done. }
  destruct (rejects env (RedisGet key)); [by apply Hfb|].
  cbv zeta in Hcases.
  destruct (cache_hit _); [|done].
  destruct (JSON_parse _); [|by apply Hfb].
  destruct Hcases as (_ & _ & E & _). done.
Qed.

(** C6, amended: when the [SETEX] of a read that loaded its payload is
    rejected, the error is logged and the read is answered 500 with a
    message in place of the payload; the store and the database are as
    they were. *)
Theorem rejected_population_fails_the_read r req env w key payload e :
  lookup_key r req = Some key ->
  let w' := serve r req env w in
  let evs := effects w w' in
  In (Await (RedisSetex key 3600 (JSON_stringify payload))) evs ->
  rejects env (RedisSetex key 3600 (JSON_stringify payload)) = Some e ->
  (exists msg, response evs = Some (500%nat, message_body msg))
  /\ (exists msg, In (Logged Error msg (Some e)) evs)
  /\ loads evs = 1%nat /\ redis w' = redis w /\ db w' = db w.
Proof.
  intros Hkey w' evs Hin Hrej.
  destruct (cached_read_populating r req env w key _ _ _ Hkey Hin) as [Hdb [Hloads Hcases]].
  fold w' evs in Hdb, Hloads, Hcases.
  apply In_setexs in Hin.
  destruct Hcases as [(op & e' & _ & _ & _ & _ & E & _)|[(m & msg & _ & _ & _ & E & _)|Hpop]];
    [by rewrite E in Hin .. |].
  destruct Hpop as (payload' & _ & E & Hcases).
  rewrite E in Hin. apply list_elem_of_In, list_elem_of_singleton in Hin.
  injection Hin as Hv. apply JSON_stringify_inj in Hv as <-.
  rewrite Hrej in Hcases. destruct Hcases as (Hresp & Hlog & Hredis). done.
Qed.

(** C4: when a read has loaded a payload from the database and sent it,
    the next read under the same key, within the hour and with Redis
    answering, sends the same payload and queries no database: of the
    two, one load. *)
Theorem read_through r r' req req' env env' w key payload :
  lookup_key r req = Some key -> lookup_key r' req' = Some key ->
  let w1 := serve r req env w in
  let evs1 := effects w w1 in
  let w2 := serve r' req' env' w1 in
  let evs2 := effects w1 w2 in
  loads evs1 = 1%nat -> response evs1 = Some (200%nat, payload) ->
  (now env' < now env + 3600)%nat -> rejects env' (RedisGet key) = None ->
  response evs2 = Some (200%nat, payload)
  /\ loads evs2 = 0%nat /\ loads (evs1 ++ evs2) = 1%nat
  /\ setexs evs2 = [] /\ redis w2 = redis w1.
Proof.
  intros Hkey Hkey' w1 evs1 w2 evs2 Hloads Hresp Hnow Hget.
  assert (Hstored : redis w1 =
            <[key := (JSON_stringify payload, (now env + 3600)%nat)]> (redis w)).
  { destruct (cached_read_cases r req env w key Hkey) as [_ Hcases].
    fold w1 evs1 in Hcases.
    assert (Hl : read_loads r req env key w w1 evs1 ->
                 redis w1 = <[key := (JSON_stringify payload, (now env + 3600)%nat)]> (redis w)).
    { intros (_ & [(op & e' & _ & _ & _ & (msg & E) & _)
                  |[(m & msg & _ & _ & E & _)|(payload' & _ & _ & Hset)]]).
      - rewrite E in Hresp. discriminate Hresp.
      - rewrite E in Hresp. discriminate Hresp.
      - destruct (rejects env (RedisSetex _ _ _)).
        + destruct Hset as ((msg & E) & _). rewrite E in Hresp. discriminate Hresp.
        + destruct Hset as (E & Hredis). rewrite E in Hresp.
          injection Hresp as <-. exact Hredis. }
    assert (Hfb : read_falls_back r req env key w w1 evs1 ->
                  redis w1 = <[key := (JSON_stringify payload, (now env + 3600)%nat)]> (redis w)).
    { unfold read_falls_back. destruct (guarded_lookup r); [done|].
      intros (_ & E & _). rewrite E in Hloads. discriminate Hloads. }
    destruct (rejects env (RedisGet key)); [by apply Hfb|].
    cbv zeta in Hcases. destruct (cache_hit _); [|by apply Hl].
    destruct (JSON_parse _); [|by apply Hfb].
    destruct Hcases as (_ & E & _). rewrite E in Hloads. discriminate Hloads. }
  destruct (cached_read_cases r' req' env' w1 key Hkey') as [_ Hcases].
  fold w2 evs2 in Hcases. rewrite Hget in Hcases. cbv zeta in Hcases.
  rewrite Hstored, redis_lookup_fresh in Hcases by done.
  rewrite cache_hit_stringify in Hcases. cbn [cached_text] in Hcases.
  unfold JSON_parse in Hcases. rewrite parse_value_text in Hcases.
  destruct Hcases as (Hresp2 & Hloads2 & Hset2 & Hredis2).
  split_and!; try done.
  unfold loads in *. by rewrite filter_app, length_app, Hloads, Hloads2.
Qed.

(** C9, amended: a read by id of a document that is not in the database
    writes nothing to the store; it is answered 404 when its lookup is
    answered with no live entry and the query it awaits is answered; and when the
    store still holds a live entry under its key (the text of a payload
    cached while the document was there), the lookup being answered, it
    is answered 200 with that payload, without a query. *)
Theorem missing_document_is_not_cached r m req env w key :
  entity_model r = Some m -> lookup_key r req = Some key ->
  db w !! (m, param req "id") = None ->
  let w' := serve r req env w in
  let evs := effects w w' in
  (setexs evs = [] /\ redis w' = redis w /\ db w' = db w)
  /\ (rejects env (RedisGet key) = None ->
      redis_lookup (now env) (redis w) key = None ->
      (forall op, In (Await op) evs -> is_load (Await op) = true ->
                  rejects env op = None) ->
      exists msg, response evs = Some (404%nat, message_body msg) /\ loads evs = 1%nat)
  /\ (forall payload,
        rejects env (RedisGet key) = None ->
        redis_lookup (now env) (redis w) key = Some (JSON_stringify payload) ->
        response evs = Some (200%nat, payload) /\ loads evs = 0%nat).
Proof.
  intros Hm Hkey Hnone w' evs.
  destruct (cached_read_cases r req env w key Hkey) as [Hdb Hcases].
  fold w' evs in Hdb, Hcases.
  assert (Hl : read_loads r req env key w w' evs ->
               (setexs evs = [] /\ redis w' = redis w)
               /\ ((forall op, In (Await op) evs -> is_load (Await op) = true ->
                               rejects env op = None) ->
                   exists msg, response evs = Some (404%nat, message_body msg)
                               /\ loads evs = 1%nat)).
  { intros (Hloads & [(op & e' & Hin & Hop & Hrej & _ & E & Hredis)
                     |[(m' & msg & _ & _ & Hresp & E & Hredis)|(payload' & Hsome & _)]]).
    - split; [done|]. intros Hdb_ok. rewrite (Hdb_ok op Hin Hop) in Hrej. discriminate Hrej.
    - split; [done|]. intros _. by exists msg.
    - by destruct (Hsome m Hm). }
  assert (Hfb : read_falls_back r req env key w w' evs ->
                setexs evs = [] /\ redis w' = redis w).
  { unfold read_falls_back. destruct (guarded_lookup r); [by intros [? _]%Hl|].
    by intros (_ & _ & ? & ?). }
  split; [|split].
  - cut (setexs evs = [] /\ redis w' = redis w); [by intros [? ?]|].
    destruct (rejects env (RedisGet key)); [by apply Hfb|].
    cbv zeta in Hcases. destruct (cache_hit _); [|by apply Hl].
    destruct (JSON_parse _); [|by apply Hfb].
    by destruct Hcases as (_ & _ & ? & ?).
  - intros Hget Hmiss Hdb_ok. rewrite Hget in Hcases. cbv zeta in Hcases.
    rewrite Hmiss in Hcases. cbn [cache_hit] in Hcases.
    by apply Hl.
  - intros payload Hget Hlive. rewrite Hget in Hcases. cbv zeta in Hcases.
    rewrite Hlive, cache_hit_stringify in Hcases. cbn [cached_text] in Hcases.
    unfold JSON_parse in Hcases. rewrite parse_value_text in Hcases.
    by destruct Hcases as (? & ? & _).
Qed.
End Reads2.

(** ** A lookup that rejects *)






Section Outage.
Context `{Mongoose}.


End Outage.

(** ** Requests run in the small deployment *)

Section Runs.
#[local] Existing Instance Demo.mongoose.
Import Demo.

(** The events of one request. *)
Ltac run := vm_compute; split_and?; reflexivity.

(** C10 at work: a PATCH of transfer [x1] that sets [_id]. *)
Lemma patch_rejects_unknown_field_witness :
  exists msg,
    handler TransfersPatch (request [] x1 [("_id", JStr x9)]) (calm 0) one_transfer
    = (Returned, record (Responded 400 (message_body msg)) one_transfer).
Proof.
  apply (patch_rejects_unknown_field TransfersPatch transfers_allowedUpdates "_id").
  - reflexivity.
  - left. reflexivity.
  - intros Hin. repeat (destruct Hin as [Hin|Hin]; [discriminate Hin|]). exact Hin.
Defined.

(** C7 at work: a PATCH of the title of award [a1]: the award is saved,
    its two keys are deleted, and it is answered 200. *)
Lemma invalidation_between_commit_and_response_witness :
  let env := calm 0 in
  let req := request [] a1 [("title", JStr "Top Scorer")] in
  let evs := effects one_award (serve AwardsPatch req env one_award) in
  (invalidation_follows_commit env evs /\ response_follows_invalidation evs)
  /\ dels evs = [entityKey "award" a1; "awards:*"]
  /\ exists body, response evs = Some (200%nat, body).
Proof.
  split; [|split].
  - apply (invalidation_between_commit_and_response AwardsPatch). reflexivity.
  - run.
  - eexists. run.
Defined.

(** C5 at work: the DELETE of transfer [x1]. *)
Lemma writes_delete_their_keys_witness :
  let w := one_transfer in
  let w' := serve TransfersDelete (request [] x1 []) (calm 0) w in
  let evs := effects w w' in
  (exists rest, invalidated_keys TransfersDelete (request [] x1 []) = dels evs ++ rest)
  /\ (forall status body, response evs = Some (status, body) -> success status = true ->
        dels evs = invalidated_keys TransfersDelete (request [] x1 [])
        /\ Forall (fun k => redis w' !! k = None)
                  (invalidated_keys TransfersDelete (request [] x1 [])))
  /\ (uncached_router TransfersDelete = true -> Forall no_redis evs /\ redis w' = redis w).
Proof.
  apply (writes_delete_their_keys TransfersDelete). reflexivity.
Defined.

(** C4 at work: the list of transfers read twice, ten seconds apart. *)
Lemma read_through_witness :
  let req := request [] "" [] in
  let w1 := serve TransfersList req (calm 0) one_transfer in
  let evs1 := effects one_transfer w1 in
  let w2 := serve TransfersList req (calm 10) w1 in
  let evs2 := effects w1 w2 in
  response evs2 = Some (200%nat, JArr [toJSON {| doc_id := x1; doc_fields := loan |}])
  /\ loads evs2 = 0%nat /\ loads (evs1 ++ evs2) = 1%nat
  /\ setexs evs2 = [] /\ redis w2 = redis w1.
Proof.
  apply (read_through TransfersList TransfersList _ _ (calm 0) (calm 10) one_transfer
           (cacheKey "transfers" [])).
  - reflexivity.
  - reflexivity.
  - run.
  - run.
  - simpl. lia.
  - reflexivity.
Defined.

(** C6 at work: the list of transfers read while Redis takes no writes. *)
Lemma rejected_population_fails_the_read_witness :
  let w := one_transfer in
  let w' := serve TransfersList (request [] "" []) (redis_read_only 0) w in
  let evs := effects w w' in
  (exists msg, response evs = Some (500%nat, message_body msg))
  /\ (exists msg, In (Logged Error msg (Some redisError)) evs)
  /\ loads evs = 1%nat /\ redis w' = redis w /\ db w' = db w.
Proof.
  apply (rejected_population_fails_the_read TransfersList _ (redis_read_only 0) one_transfer
           (cacheKey "transfers" [])
           (JArr [toJSON {| doc_id := x1; doc_fields := loan |}])).
  - reflexivity.
  - vm_compute. repeat (first [left; reflexivity | right]).
  - reflexivity.
Defined.

(** C9 at work: a read of transfer [x9], which does not exist. *)
Lemma missing_document_is_not_cached_witness :
  let w := one_transfer in
  let w' := serve TransfersGet (request [] x9 []) (calm 0) w in
  let evs := effects w w' in
  (setexs evs = [] /\ redis w' = redis w /\ db w' = db w)
  /\ exists msg, response evs = Some (404%nat, message_body msg) /\ loads evs = 1%nat.
Proof.
  destruct (missing_document_is_not_cached TransfersGet Transfer (request [] x9 [])
              (calm 0) one_transfer (entityKey "transfer" x9)) as (Hkept & Hanswer & _).
  - reflexivity.
  - reflexivity.
  - run.
  - split; [exact Hkept|]. apply Hanswer.
    + reflexivity.
    + run.
    + intros op Hin _. vm_compute in Hin.
      repeat (destruct Hin as [Hin|Hin];
              [try discriminate Hin; injection Hin as <-; reflexivity|]).
      destruct Hin.
Defined.


(** *** What the routes do where the claims say otherwise *)


(** C5 as stated fails: a team is created and answered 201 with no key
    deleted; an award is created and answered 201 with [del] called
    with [awards:*] alone, and with no key of its own. *)
Lemma creates_delete_no_entity_key :
  let evs := effects empty_world
               (serve TeamsPost (request [] "" dragons) (calm 0) empty_world) in
  let evs' := effects empty_world
                (serve AwardsPost (request [] "" trophy) (calm 0) empty_world) in
  (exists body, response evs = Some (201%nat, body)) /\ dels evs = []
  /\ (exists body, response evs' = Some (201%nat, body)) /\ dels evs' = ["awards:*"].
Proof. split_and!; [eexists; run | run | eexists; run | run]. Qed.

(** C6 as stated fails: the list of transfers is loaded, [SETEX] rejects, and the answer is
    500 in place of the list. *)
Lemma rejected_population_surfaces :
  let evs := effects one_transfer
               (serve TransfersList (request [] "" []) (redis_read_only 0) one_transfer) in
  loads evs = 1%nat
  /\ awaited evs <> []
  /\ response evs = Some (500%nat, message_body "Error fetching transfers").
Proof. split_and!; [run | discriminate | run]. Qed.

(** C9 as stated fails: transfer [x1] is read (and cached), then deleted while [DEL] rejects,
    then read again within the hour: it is no longer in the database, and
    is answered 200 from the store. *)
Lemma stale_entry_served_for_missing_document :
  let req := request [] x1 [] in
  let w1 := serve TransfersGet req (calm 0) one_transfer in
  let w2 := serve TransfersDelete req (del_rejected 1) w1 in
  let w3 := serve TransfersGet req (calm 2) w2 in
  db w2 !! (Transfer, x1) = None
  /\ response (effects w2 w3)
     = Some (200%nat, toJSON {| doc_id := x1; doc_fields := loan |})
  /\ loads (effects w2 w3) = 0%nat.
Proof. run. Qed.

(** C1 in a run: the list of player statistics is read (and cached)
    while there is none, the statistics of player [p1] are created and
    their invalidation runs, and the list read again is the empty one of
    before, from the store. *)
Lemma stale_list_after_create :
  let stats := [("player", JStr p1)] in
  let w1 := serve PlayerStatsList (request [] "" []) (calm 0) empty_world in
  let w2 := serve PlayerStatsPost (request [] "" stats) (calm 1) w1 in
  let w3 := serve PlayerStatsList (request [] "" []) (calm 2) w2 in
  (exists body, response (effects w1 w2) = Some (201%nat, body))
  /\ dels (effects w1 w2) = ["playerStats:*"]
  /\ db w2 !! (PlayerStat, object_id 0) = Some stats
  /\ response (effects w2 w3) = Some (200%nat, JArr [])
  /\ loads (effects w2 w3) = 0%nat.
Proof. split_and!; [eexists; run | run ..]. Qed.
End Runs.

(** * Further properties of the routes *)

(** ** Cached payloads and their keys *)

(** A text that begins with none of the characters a JSON value begins
    with is one [JSON_parse] gives nothing for. *)
Lemma cannot_begin_JSON_parse text : cannot_begin_JSON text = true -> JSON_parse text = None.
Proof.
  destruct text as [|c r]; [discriminate|].
  destruct c as [[] [] [] [] [] [] [] []]; intros Hc; try discriminate Hc; reflexivity.
Qed.

Section Keys.
Context `{Mongoose}.

(** X2: two cached reads look up the same key only when they are the
    same route, or the list of news and a news article: [news:] is the
    prefix of both, and an article whose id is the text of a query shares
    the entry of that list. *)
Theorem lookup_keys_meet_only_in_news r r' req req' key :
  lookup_key r req = Some key -> lookup_key r' req' = Some key ->
  r = r' \/ (r = NewsList /\ r' = NewsGet) \/ (r = NewsGet /\ r' = NewsList).
Proof.
  intros Hr Hr'.
  destruct r; try discriminate Hr; destruct r'; try discriminate Hr'.
  all: try (left; reflexivity).
  all: try (right; left; split; reflexivity).
  all: try (right; right; split; reflexivity).
  all: exfalso; injection Hr as <-; injection Hr' as Hr'.
  all: unfold cacheKey, entityKey in Hr'; cbn [String.append] in Hr'; discriminate Hr'.
Qed.

(** What a cached read leaves alone: every key of the store but its own. *)
Lemma read_frame r req env w key k :
  lookup_key r req = Some key -> k <> key ->
  redis (serve r req env w) !! k = redis w !! k.
Proof.
  intros Hkey Hk.
  destruct (cached_read_cases r req env w key Hkey) as [_ Hcases].
  set (w' := serve r req env w) in *. set (evs := effects w w') in *.
  assert (Hl : read_loads r req env key w w' evs -> redis w' !! k = redis w !! k).
  { intros (_ & [(op & e & _ & _ & _ & _ & _ & ->)
                |[(m & msg & _ & _ & _ & _ & ->)|(payload & _ & _ & Hset)]]); try done.
    destruct (rejects env (RedisSetex _ _ _)).
    - by destruct Hset as (_ & _ & ->).
    - destruct Hset as (_ & ->). by apply lookup_insert_ne. }
  assert (Hfb : read_falls_back r req env key w w' evs -> redis w' !! k = redis w !! k).
  { unfold read_falls_back. destruct (guarded_lookup r); [done|].
    by intros (_ & _ & _ & ->). }
  destruct (rejects env (RedisGet key)); [by apply Hfb|].
  cbv zeta in Hcases. destruct (cache_hit _); [|by apply Hl].
  destruct (JSON_parse _); [|by apply Hfb].
  by destruct Hcases as (_ & _ & _ & ->).
Qed.

(** X3: a cached read changes no entry of the store but the one under
    its own key, and nothing in the database. *)
Theorem read_touches_only_its_key r req env w key :
  lookup_key r req = Some key ->
  let w' := serve r req env w in
  db w' = db w /\ forall k, k <> key -> redis w' !! k = redis w !! k.
Proof.
  intros Hkey w'. split.
  - by destruct (cached_read_cases r req env w key Hkey) as [Hdb _].
  - intros k Hk. by apply (read_frame r req env w key).
Qed.

(** X4: an entry that is in the store, has not expired and is no JSON
    text, as its first character tells (an error page, say): the routes
    whose lookup has a [try] block of its own go on to the database; the
    list of players, the player statistics and an award by id are
    answered 500 without a query, as long as the entry lives. *)
Theorem corrupt_entry_fails_unguarded_reads r req env w key text :
  lookup_key r req = Some key -> rejects env (RedisGet key) = None ->
  redis_lookup (now env) (redis w) key = Some text ->
  cannot_begin_JSON text = true ->
  let w' := serve r req env w in
  let evs := effects w w' in
  if guarded_lookup r then loads evs = 1%nat
  else (exists msg, response evs = Some (500%nat, message_body msg))
       /\ loads evs = 0%nat /\ db w' = db w /\ redis w' = redis w.
Proof.
  intros Hkey Hget Hlive Hbegin w' evs.
  destruct (cached_read_cases r req env w key Hkey) as [Hdb Hcases].
  fold w' evs in Hdb, Hcases. rewrite Hget in Hcases. cbv zeta in Hcases.
  rewrite Hlive in Hcases. cbn [cache_hit cached_text] in Hcases.
  assert (Htext : (text =? "")%string = false) by (by destruct text).
  rewrite Htext, (cannot_begin_JSON_parse text Hbegin) in Hcases. cbn [negb] in Hcases.
  unfold read_falls_back in Hcases. destruct (guarded_lookup r).
  - by destruct Hcases as [? _].
  - by destruct Hcases as (Hresp & Hloads & _ & Hredis).
Qed.

(** X17: on the routes whose lookup shares the [try] block of the
    handler (the list of players, the player statistics, an award by
    id), a lookup that rejects ends the request: it is answered 500, the
    database is not queried and nothing is written. *)
Theorem rejected_lookup_fails_unguarded_reads r req env w key :
  lookup_key r req = Some key -> guarded_lookup r = false ->
  rejects env (RedisGet key) <> None ->
  let w' := serve r req env w in
  let evs := effects w w' in
  (exists msg, response evs = Some (500%nat, message_body msg))
  /\ loads evs = 0%nat /\ setexs evs = [] /\ db w' = db w /\ redis w' = redis w.
Proof.
  intros Hkey Hr Hrej w' evs.
  destruct (cached_read_cases r req env w key Hkey) as [Hdb Hcases].
  fold w' evs in Hdb, Hcases.
  destruct (rejects env (RedisGet key)); [|done].
  unfold read_falls_back in Hcases. rewrite Hr in Hcases.
  by destruct Hcases as (Hresp & Hloads & Hset & Hredis).
Qed.

(** A read that queried the database and sent what it found has stored
    it under its key, for an hour. *)
Lemma loaded_and_sent_is_stored r req env w key payload :
  lookup_key r req = Some key ->
  let w' := serve r req env w in
  let evs := effects w w' in
  loads evs = 1%nat -> response evs = Some (200%nat, payload) ->
  redis w' = <[key := (JSON_stringify payload, (now env + 3600)%nat)]> (redis w).
Proof.
  intros Hkey w' evs Hloads Hresp.
  destruct (cached_read_cases r req env w key Hkey) as [_ Hcases].
  fold w' evs in Hcases.
  assert (Hl : read_loads r req env key w w' evs ->
               redis w' = <[key := (JSON_stringify payload, (now env + 3600)%nat)]> (redis w)).
  { intros (_ & [(op & e' & _ & _ & _ & (msg & E) & _)
                |[(m & msg & _ & _ & E & _)|(payload' & _ & _ & Hset)]]).
    - rewrite E in Hresp. discriminate Hresp.
    - rewrite E in Hresp. discriminate Hresp.
    - destruct (rejects env (RedisSetex _ _ _)).
      + destruct Hset as ((msg & E) & _). rewrite E in Hresp. discriminate Hresp.
      + destruct Hset as (E & Hredis). rewrite E in Hresp.
        injection Hresp as <-. exact Hredis. }
  assert (Hfb : read_falls_back r req env key w w' evs ->
                redis w' = <[key := (JSON_stringify payload, (now env + 3600)%nat)]> (redis w)).
  { unfold read_falls_back. destruct (guarded_lookup r); [done|].
    intros (_ & E & _). rewrite E in Hloads. discriminate Hloads. }
  destruct (rejects env (RedisGet key)); [by apply Hfb|].
  cbv zeta in Hcases. destruct (cache_hit _); [|by apply Hl].
  destruct (JSON_parse _); [|by apply Hfb].
  destruct Hcases as (_ & E & _). rewrite E in Hloads. discriminate Hloads.
Qed.

(** X5: an hour after a read has stored its payload, the entry is gone:
    the next read under the key, with Redis answering, queries the
    database again. *)
Theorem expired_entry_is_reloaded r r' req req' env env' w key payload :
  lookup_key r req = Some key -> lookup_key r' req' = Some key ->
  let w1 := serve r req env w in
  let evs1 := effects w w1 in
  let w2 := serve r' req' env' w1 in
  let evs2 := effects w1 w2 in
  loads evs1 = 1%nat -> response evs1 = Some (200%nat, payload) ->
  (now env + 3600 <= now env')%nat -> rejects env' (RedisGet key) = None ->
  loads evs2 = 1%nat /\ loads (evs1 ++ evs2) = 2%nat.
Proof.
  intros Hkey Hkey' w1 evs1 w2 evs2 Hloads Hresp Hnow Hget.
  pose proof (loaded_and_sent_is_stored r req env w key payload Hkey Hloads Hresp) as Hstored.
  fold w1 in Hstored.
  destruct (cached_read_cases r' req' env' w1 key Hkey') as [_ Hcases].
  fold w2 evs2 in Hcases. rewrite Hget in Hcases. cbv zeta in Hcases.
  assert (Hgone : redis_lookup (now env') (redis w1) key = None).
  { unfold redis_lookup. rewrite Hstored, lookup_insert_eq.
    by apply Nat.ltb_ge in Hnow as ->. }
  rewrite Hgone in Hcases. cbn [cache_hit] in Hcases. destruct Hcases as [Hloads2 _].
  split; [done|]. unfold loads in *. by rewrite filter_app, length_app, Hloads, Hloads2.
Qed.
End Keys.

(** ** Every route *)

Section Every.
Context `{Mongoose}.

(** X6: every request, whatever rejects, is answered exactly once, and
    with a status of its route: 200 or 500 for a list, 200, 404 or 500
    for a read by id and for a DELETE, 201 or 400 for a POST, 200, 400 or
    404 for a PATCH. *)
Theorem every_request_is_answered_once r req env w :
  answered_once r w (serve r req env w).
Proof.
  destruct r.
  all: run_route.
  all: unfold answered_once; leaf; eexists _, _; (split; [reflexivity|]).
  all: cbn [statuses method_of lists In]; repeat (first [left; reflexivity | right]).
Qed.

(** X7: a request leaves the database as it found it unless a [save] or
    a [findByIdAndDelete] it awaited was taken; a GET awaits neither and
    changes nothing, whatever Redis or the database answers. *)
Theorem database_changes_by_commit_only r req env w :
  changes_by_commit r env w (serve r req env w).
Proof.
  destruct r.
  all: run_route.
  all: unfold changes_by_commit; leaf; cbv zeta; cbn [method_of]; split.
  all: try (intros Hget; discriminate Hget).
  all: try solve [intros _; split; [reflexivity | repeat constructor]].
  all: try (left; reflexivity).
  all: right;
    match goal with
    | E : rejects _ ?op = None |- _ =>
        exists op; split; [cbn [In]; tauto | split; [reflexivity | exact E]]
    end.
Qed.

(** X8: the routers of teams, standings and fixtures, and of the players
    all routes but the list, issue no Redis command and leave the store
    as it is. *)
Theorem uncached_routes_leave_redis_alone r req env w :
  lookup_key r req = None -> invalidates r = false ->
  let w' := serve r req env w in
  Forall no_redis (effects w w') /\ redis w' = redis w.
Proof.
  intros Hkey Hinv w'. subst w'.
  destruct r; try discriminate Hkey; try discriminate Hinv; clear Hkey Hinv.
  all: run_route.
  all: leaf; split; [repeat constructor | reflexivity].
Qed.
End Every.

(** ** Writes *)

(** The disjuncts of [In e [e1; ...; en]], one by one. *)
Ltac pick_event Hin :=
  cbn [In] in Hin;
  repeat (destruct Hin as [Hin|Hin]; [try discriminate Hin|]);
  try (exfalso; exact Hin).

Section Validation.
Context `{Mongoose}.

(** X9: a POST whose body lacks a field its route requires (or holds a
    falsy value for it) is answered 400 at once: nothing is awaited,
    nothing saved and no key deleted. *)
Theorem post_requires_its_fields r field req env w :
  In field (required_fields r) -> truthy (obj_get (body req) field) = false ->
  exists msg,
    handler r req env w = (Returned, record (Responded 400 (message_body msg)) w).
Proof.
  intros Hin Hfield. destruct r; try (by destruct Hin).
  all: cbn [required_fields] in Hin; pick_event Hin; subst field.
  all: eexists; simpl handler; unfold_route; cbv zeta;
    unfold try_catch, mbind, Async_bind, when_; rewrite Hfield;
    cbn [negb]; rewrite ?orb_true_r; reflexivity.
Qed.

(** X10: a PATCH of a player whose body has a truthy [position] never
    reaches the database: the handler names [validPositions], which its
    scope does not bind, and the request is answered 400 with the message
    of the [ReferenceError] (or with that of the allow-list). *)
Theorem players_patch_of_position_fails req env w :
  truthy (obj_get (body req) "position") = true ->
  let w' := serve PlayersPatch req env w in
  let evs := effects w w' in
  awaited evs = [] /\ db w' = db w /\ redis w' = redis w
  /\ exists msg, response evs = Some (400%nat, message_body msg)
       /\ (isValidOperation (Object_keys (body req)) players_allowedUpdates = true ->
           msg = "validPositions is not defined").
Proof.
  intros Hpos w' evs. subst evs w'.
  run_route.
  all: subst; prune.
  all: leaf; split_and!; try reflexivity; eexists; (split; [reflexivity|]).
  all: intros Hvalid; first [reflexivity | rewrite Hvalid in *; simplify_eq/=].
Qed.
End Validation.

Section ById.
Context `{Mongoose}.

(** X11: a DELETE whose [findByIdAndDelete] is taken removes the document
    of that id, whatever Redis answers to the invalidation that follows and
    whatever status is sent; when there is no such document it answers 404
    and changes nothing. *)
Theorem delete_removes_the_document r req env w :
  method_of r = DELETE ->
  rejects env (MongoFindByIdAndDelete (model_of r) (param req "id")) = None ->
  deletes r req w (serve r req env w).
Proof.
  intros Hr Hop. destruct r; try discriminate Hr; clear Hr; cbn [model_of] in Hop.
  all: run_route.
  all: unfold deletes, reports_missing; cbv zeta; cbn [model_of];
    match goal with E : db _ !! _ = _ |- _ => rewrite E end.
  all: leaf; first [reflexivity | split_and!; [eexists; reflexivity | reflexivity ..]].
Qed.

(** X12: a PATCH that passes its checks and finds no document of that id
    answers 404: [findById] is all it awaits, and the database and the
    store are as they were. *)
Theorem patch_of_missing_document r req env w :
  method_of r = PATCH ->
  rejects env (MongoFindById (model_of r) (param req "id") []) = None ->
  db w !! (model_of r, param req "id") = None ->
  patch_finds_nothing r req w (serve r req env w).
Proof.
  intros Hr Hop Hnone. destruct r; try discriminate Hr; clear Hr; cbn [model_of] in Hop, Hnone.
  all: run_route.
  all: try match goal with
         | E : _ <$> db _ !! _ = Some _ |- _ => rewrite Hnone in E; discriminate E
         end.
  all: unfold patch_finds_nothing, reports_missing; cbv zeta; cbn [model_of]; leaf;
    intros Hin.
  all: try (pick_event Hin; fail).
  all: split_and!; [eexists; reflexivity | reflexivity ..].
Qed.

(** X13: when a [DEL] of an invalidation rejects, the mutation before it
    was taken all the same, and the write is answered with an error (400
    for a create or an update, 500 for a delete). *)
Theorem rejected_invalidation_fails_a_committed_write r req env w :
  invalidates r = true ->
  invalidation_failure_is_answered env w (serve r req env w).
Proof.
  intros Hr. destruct r; try discriminate Hr; clear Hr.
  all: run_route.
  all: unfold invalidation_failure_is_answered; cbv zeta; leaf; intros k err Hin Hrej.
  all: try (pick_event Hin; injection Hin as <-;
            match goal with E : rejects _ (RedisDel _) = None |- _ =>
              rewrite E in Hrej; discriminate Hrej end).
  all: split;
    [ match goal with
      | E : rejects _ ?op = None |- _ =>
          exists op; split; [cbn [In]; tauto | split; [reflexivity | exact E]]
      end
    | eexists _, _; split; reflexivity ].
Qed.
End ById.

(** ** The further properties in the small deployment *)

Section MoreRuns.
#[local] Existing Instance Demo.mongoose.
Import Demo.

Ltac run := vm_compute; split_and?; reflexivity.

(** X2 at work: the list of news and the article of id [{}]. *)
Lemma lookup_keys_meet_only_in_news_witness :
  NewsList = NewsGet \/ (NewsList = NewsList /\ NewsGet = NewsGet)
  \/ (NewsList = NewsGet /\ NewsGet = NewsList).
Proof.
  apply (lookup_keys_meet_only_in_news NewsList NewsGet
           (request [] "" []) (request [] "{}" []) (cacheKey "news" [])).
  - reflexivity.
  - reflexivity.
Defined.

(** The keys of X2 in a run: the list of news is read (and cached), and
    the article of id [{}] is then answered with that list. *)
Lemma news_article_answered_with_the_list :
  let w1 := serve NewsList (request [] "" []) (calm 0) empty_world in
  let w2 := serve NewsGet (request [] "{}" []) (calm 1) w1 in
  response (effects w1 w2) = Some (200%nat, JArr []) /\ loads (effects w1 w2) = 0%nat.
Proof. run. Qed.

(** X3 at work: the list of transfers is read; the entry of the list of
    players stays. *)
Lemma read_touches_only_its_key_witness :
  let w' := serve TransfersList (request [] "" []) (calm 0) corrupt_players in
  db w' = db corrupt_players
  /\ forall k, k <> cacheKey "transfers" [] -> redis w' !! k = redis corrupt_players !! k.
Proof.
  apply (read_touches_only_its_key TransfersList). reflexivity.
Defined.

(** X4 at work: the list of players with an entry that is no JSON text. *)
Lemma corrupt_entry_fails_unguarded_reads_witness :
  let w := corrupt_players in
  let w' := serve PlayersList (request [] "" []) (calm 0) w in
  let evs := effects w w' in
  (exists msg, response evs = Some (500%nat, message_body msg))
  /\ loads evs = 0%nat /\ db w' = db w /\ redis w' = redis w.
Proof.
  apply (corrupt_entry_fails_unguarded_reads PlayersList (request [] "" []) (calm 0)
           corrupt_players (cacheKey "players" []) "<html>").
  - reflexivity.
  - reflexivity.
  - run.
  - reflexivity.
Defined.

(** X17 at work: the list of players read while [GET] rejects. *)
Lemma rejected_lookup_fails_unguarded_reads_witness :
  let w := empty_world in
  let w' := serve PlayersList (request [] "" []) (get_rejected 0) w in
  let evs := effects w w' in
  (exists msg, response evs = Some (500%nat, message_body msg))
  /\ loads evs = 0%nat /\ setexs evs = [] /\ db w' = db w /\ redis w' = redis w.
Proof.
  apply (rejected_lookup_fails_unguarded_reads PlayersList (request [] "" [])
           (get_rejected 0) empty_world (cacheKey "players" [])).
  - reflexivity.
  - reflexivity.
  - discriminate.
Defined.

(** X5 at work: the list of transfers read twice, an hour apart. *)
Lemma expired_entry_is_reloaded_witness :
  let req := request [] "" [] in
  let w1 := serve TransfersList req (calm 0) one_transfer in
  let evs1 := effects one_transfer w1 in
  let w2 := serve TransfersList req (calm 3600) w1 in
  let evs2 := effects w1 w2 in
  loads evs2 = 1%nat /\ loads (evs1 ++ evs2) = 2%nat.
Proof.
  apply (expired_entry_is_reloaded TransfersList TransfersList _ _ (calm 0) (calm 3600)
           one_transfer (cacheKey "transfers" [])
           (JArr [toJSON {| doc_id := x1; doc_fields := loan |}])).
  - reflexivity.
  - reflexivity.
  - run.
  - run.
  - simpl. lia.
  - reflexivity.
Defined.

(** X8 at work: a team is created. *)
Lemma uncached_routes_leave_redis_alone_witness :
  let w' := serve TeamsPost (request [] "" dragons) (calm 0) corrupt_players in
  Forall no_redis (effects corrupt_players w') /\ redis w' = redis corrupt_players.
Proof.
  apply (uncached_routes_leave_redis_alone TeamsPost); reflexivity.
Defined.

(** X9 at work: a team without a code. *)
Lemma post_requires_its_fields_witness :
  exists msg,
    handler TeamsPost (request [] "" [("name", JStr "Dragons")]) (calm 0) empty_world
    = (Returned, record (Responded 400 (message_body msg)) empty_world).
Proof.
  apply (post_requires_its_fields TeamsPost "code").
  - right. left. reflexivity.
  - reflexivity.
Defined.

(** X10 at work: a player is moved to another position. *)
Lemma players_patch_of_position_fails_witness :
  let req := request [] p1 [("position", JStr "Forward")] in
  let w' := serve PlayersPatch req (calm 0) empty_world in
  let evs := effects empty_world w' in
  awaited evs = [] /\ db w' = db empty_world /\ redis w' = redis empty_world
  /\ exists msg, response evs = Some (400%nat, message_body msg)
       /\ (isValidOperation (Object_keys (body req)) players_allowedUpdates = true ->
           msg = "validPositions is not defined").
Proof.
  apply (players_patch_of_position_fails (request [] p1 [("position", JStr "Forward")])).
  reflexivity.
Defined.

(** X11 at work: transfer [x1] is deleted while Redis is unreachable. *)
Lemma delete_removes_the_document_witness :
  deletes TransfersDelete (request [] x1 []) one_transfer
    (serve TransfersDelete (request [] x1 []) (redis_down 0) one_transfer).
Proof.
  apply (delete_removes_the_document TransfersDelete).
  - reflexivity.
  - reflexivity.
Defined.

(** X12 at work: the fee of transfer [x9], which does not exist. *)
Lemma patch_of_missing_document_witness :
  let req := request [] x9 [("fee", JNum 5)] in
  reports_missing (MongoFindById Transfer x9 []) one_transfer
    (serve TransfersPatch req (calm 0) one_transfer).
Proof.
  apply (patch_of_missing_document TransfersPatch (request [] x9 [("fee", JNum 5)])
           (calm 0) one_transfer).
  - reflexivity.
  - reflexivity.
  - run.
  - vm_compute. left. reflexivity.
Defined.

(** X13 at work: transfer [x1] is deleted while [DEL] rejects. *)
Lemma rejected_invalidation_fails_a_committed_write_witness :
  let env := del_rejected 0 in
  let evs := effects one_transfer
               (serve TransfersDelete (request [] x1 []) env one_transfer) in
  (exists op, In (Await op) evs /\ committed env op)
  /\ exists status msg,
       response evs = Some (status, message_body msg) /\ success status = false.
Proof.
  apply (rejected_invalidation_fails_a_committed_write TransfersDelete (request [] x1 [])
           (del_rejected 0) one_transfer eq_refl (entityKey "transfer" x1) redisError).
  - vm_compute. right. left. reflexivity.
  - reflexivity.
Defined.
End MoreRuns.

(** ** Reads after writes *)

Section Stale.
Context `{Mongoose}.

(** X14: what a read has cached outlives every write that does not name
    its key: the same read, within the hour and with Redis answering, is
    answered from the store with the payload of before the write. *)
Theorem cached_answer_survives_writes r r' req req' env env' env'' w key payload :
  lookup_key r req = Some key ->
  is_write r' = true -> ~ In key (invalidated_keys r' req') ->
  let w1 := serve r req env w in
  let w2 := serve r' req' env' w1 in
  let w3 := serve r req env'' w2 in
  loads (effects w w1) = 1%nat -> response (effects w w1) = Some (200%nat, payload) ->
  (now env'' < now env + 3600)%nat -> rejects env'' (RedisGet key) = None ->
  response (effects w2 w3) = Some (200%nat, payload) /\ loads (effects w2 w3) = 0%nat.
Proof.
  intros Hkey Hwrite Hother w1 w2 w3 Hloads Hresp Hnow Hget.
  pose proof (loaded_and_sent_is_stored r req env w key payload Hkey Hloads Hresp) as Hstored.
  pose proof (write_frame r' req' env' w1 key Hwrite Hother) as Hframe.
  fold w1 in Hstored, Hframe. fold w2 in Hframe.
  destruct (cached_read_cases r req env'' w2 key Hkey) as [_ Hcases].
  fold w3 in Hcases. rewrite Hget in Hcases. cbv zeta in Hcases.
  assert (Hlive : redis_lookup (now env'') (redis w2) key = Some (JSON_stringify payload)).
  { unfold redis_lookup. rewrite Hframe, Hstored, lookup_insert_eq.
    by apply Nat.ltb_lt in Hnow as ->. }
  rewrite Hlive, cache_hit_stringify in Hcases. cbn [cached_text] in Hcases.
  unfold JSON_parse in Hcases. rewrite parse_value_text in Hcases.
  by destruct Hcases as (? & ? & _).
Qed.

Lemma successful_write_clears_its_keys r req env w :
  is_write r = true -> clears_its_keys r req w (serve r req env w).
Proof.
  intros Hr. destruct r; try discriminate Hr; clear Hr.
  all: run_route.
  all: unfold clears_its_keys; leaf; intros st bd Hresp Hs; cbn [invalidated_keys].
  all: first [ injection Hresp as <- <-; discriminate Hs
             | repeat constructor;
               first [apply lookup_delete_eq | apply lookup_delete2_first] ].
Qed.

(** X15: after a write that answered with success, a read whose key the
    write names finds no entry and queries the database: a transfer, an
    award, a player statistic or a news article read by id after its
    update is not the cached one. *)
Theorem read_after_write_reloads r r' req req' env env' w key status body :
  is_write r' = true ->
  lookup_key r req = Some key -> In key (invalidated_keys r' req') ->
  let w1 := serve r' req' env' w in
  let w2 := serve r req env w1 in
  response (effects w w1) = Some (status, body) -> success status = true ->
  rejects env (RedisGet key) = None ->
  loads (effects w1 w2) = 1%nat.
Proof.
  intros Hwrite Hkey Hnamed w1 w2 Hresp Hs Hget.
  pose proof (successful_write_clears_its_keys r' req' env' w Hwrite _ _ Hresp Hs) as Hgone.
  rewrite Forall_forall in Hgone. apply list_elem_of_In, Hgone in Hnamed. fold w1 in Hnamed.
  destruct (cached_read_cases r req env w1 key Hkey) as [_ Hcases].
  fold w2 in Hcases. rewrite Hget in Hcases. cbv zeta in Hcases.
  unfold redis_lookup in Hcases. rewrite Hnamed in Hcases. cbn [cache_hit] in Hcases.
  by destruct Hcases as [? _].
Qed.

(** X16: a PATCH of a standing in which a field other than [team] does
    not hold a number is answered 400 before the standing is looked up. *)
Theorem standings_patch_wants_numbers field req env w :
  In field (Object_keys (body req)) -> field <> "team" ->
  not_a_number (obj_get (body req) field) = true ->
  exists msg,
    handler StandingsPatch req env w
    = (Returned, record (Responded 400 (message_body msg)) w).
Proof.
  intros Hin Hteam Hnan. simpl handler. unfold_route. cbv zeta.
  unfold try_catch, mbind, Async_bind, when_.
  destruct (isValidOperation _ _); cbn [negb]; [|eexists; reflexivity].
  destruct (find _ _) as [update|] eqn:Hfind; [eexists; reflexivity|].
  exfalso. apply (find_none _ _ Hfind) in Hin. rewrite Hnan in Hin.
  apply String.eqb_neq in Hteam. rewrite Hteam in Hin. discriminate Hin.
Qed.
End Stale.

Section StaleRuns.
#[local] Existing Instance Demo.mongoose.
Import Demo.

Ltac run := vm_compute; split_and?; reflexivity.

(** X4 on a route with a guarded lookup: the entry of the list of
    transfers is no JSON text, and the list is loaded and sent. *)
Lemma corrupt_entry_is_skipped_by_guarded_reads :
  let evs := effects corrupt_transfers
               (serve TransfersList (request [] "" []) (calm 0) corrupt_transfers) in
  loads evs = 1%nat /\ response evs = Some (200%nat, JArr []).
Proof. run. Qed.

(** X14 at work: the list of awards is read while there is none, an
    award is created, and the list is read again. *)
Lemma cached_answer_survives_writes_witness :
  let w1 := serve AwardsList (request [] "" []) (calm 0) empty_world in
  let w2 := serve AwardsPost (request [] "" trophy) (calm 1) w1 in
  let w3 := serve AwardsList (request [] "" []) (calm 2) w2 in
  response (effects w2 w3) = Some (200%nat, JArr []) /\ loads (effects w2 w3) = 0%nat.
Proof.
  apply (cached_answer_survives_writes AwardsList AwardsPost
           (request [] "" []) (request [] "" trophy) (calm 0) (calm 1) (calm 2)
           empty_world (cacheKey "awards" [])).
  - reflexivity.
  - reflexivity.
  - intros [Hkey|[]]. discriminate Hkey.
  - run.
  - run.
  - simpl. lia.
  - reflexivity.
Defined.

(** X15 at work: award [a1] is read (and cached), its title is set, and
    it is read again. *)
Lemma read_after_write_reloads_witness :
  let w := serve AwardsGet (request [] a1 []) (calm 0) one_award in
  let w1 := serve AwardsPatch (request [] a1 [("title", JStr "Top Scorer")]) (calm 1) w in
  let w2 := serve AwardsGet (request [] a1 []) (calm 2) w1 in
  loads (effects w1 w2) = 1%nat.
Proof.
  apply (read_after_write_reloads AwardsGet AwardsPatch
           (request [] a1 []) (request [] a1 [("title", JStr "Top Scorer")])
           (calm 2) (calm 1)
           (serve AwardsGet (request [] a1 []) (calm 0) one_award)
           (entityKey "award" a1) 200
           (toJSON {| doc_id := a1;
                      doc_fields := [("title", JStr "Top Scorer");
                                     ("season", JStr "2023/2024")] |})).
  - reflexivity.
  - reflexivity.
  - left. reflexivity.
  - run.
  - reflexivity.
  - reflexivity.
Defined.

(** X16 at work: the points of a standing, as a string. *)
Lemma standings_patch_wants_numbers_witness :
  exists msg,
    handler StandingsPatch (request [] x1 [("points", JStr "12")]) (calm 0) empty_world
    = (Returned, record (Responded 400 (message_body msg)) empty_world).
Proof.
  apply (standings_patch_wants_numbers "points").
  - left. reflexivity.
  - discriminate.
  - reflexivity.
Defined.
End StaleRuns.
